(** * The secure HTTP/2 port of the gRPC core server

    A shallow embedding of [src/core/security/server_secure_chttp2.c]:
    the per-connection callbacks ([setup_transport],
    [on_secure_transport_setup_done], [on_accept]), the listener callbacks
    ([start], [destroy]) and [grpc_server_add_secure_http2_port].

    The file calls into the rest of the core (security contexts, address
    resolution, the tcp server, the chttp2 transport, the server surface).
    Those callees are not part of the file: every call to one of them is
    recorded as an [event] of the [world], and what it returns is read from
    a record of [collaborators], over which every theorem quantifies. *)

From Stdlib Require Import ZArith Lia.
From Stdlib.Strings Require Import Byte.
From stdpp Require Import base option list strings gmap.

Local Open Scope Z_scope.

(** ** Data *)

(** Pointers are addresses; [NULL] is the address 0. *)
Definition ptr : Type := Z.
Definition NULL : ptr := 0.

(** [unsigned count]: arithmetic on it wraps at [UINT_MAX + 1]. *)
Definition UINT_MAX : Z := 4294967295.
Definition unsigned_incr (count : Z) : Z := (count + 1) mod (UINT_MAX + 1).

(** Modelled from the spec: the enumeration [grpc_security_status] is declared
    in security_context.h, which is not among the sources; the spec gives
    "Status is one of {OK, ERROR}".  [GRPC_SECURITY_PENDING] stands for any
    further enumerator of the header: the file only ever tests for
    [GRPC_SECURITY_OK]. *)
Inductive grpc_security_status : Type :=
  | GRPC_SECURITY_OK
  | GRPC_SECURITY_PENDING
  | GRPC_SECURITY_ERROR.

#[global] Instance grpc_security_status_eq_dec : EqDecision grpc_security_status.
Proof. solve_decision. Defined.

Definition is_security_ok (s : grpc_security_status) : bool :=
  match s with GRPC_SECURITY_OK => true | _ => false end.

(** [grpc_server_credentials]: only the [type] tag is read here; [self] is the
    address of the object, which is what the callees receive. *)
Record grpc_server_credentials : Type := {
  self : ptr;
  type : string
}.

(** [grpc_resolved_address] and [grpc_resolved_addresses]: [naddrs] is the
    number of entries of [addrs]. *)
Record grpc_resolved_address : Type := {
  addr : list byte;
  len : Z
}.

Record grpc_resolved_addresses : Type := {
  addrs : list grpc_resolved_address
}.

Definition naddrs (r : grpc_resolved_addresses) : Z := Z.of_nat (length (addrs r)).

(** [grpc_transport_setup_result], opaque to this file. *)
Record grpc_transport_setup_result : Type := {
  user_data : ptr;
  callbacks : ptr
}.

(** The channel filters this file takes the address of, and any other one. *)
Inductive grpc_channel_filter : Type :=
  | grpc_http_server_filter
  | grpc_http_filter
  | grpc_other_filter (name : string).

(** The functions of this file that are passed around as function pointers. *)
Inductive callback : Type :=
  | Fn_setup_transport
  | Fn_on_secure_transport_setup_done
  | Fn_on_accept
  | Fn_start
  | Fn_destroy.

(** [typedef struct { tcp; ctx; server } secured_port]. *)
Record secured_port : Type := {
  tcp : ptr;
  ctx : ptr;
  server : ptr
}.

(** ** Logging *)

Inductive gpr_log_severity : Type := GPR_DEBUG | GPR_INFO | GPR_ERROR.

Inductive log_arg : Type :=
  | Arg_int (n : Z)
  | Arg_str (s : string)
  | Arg_status (s : grpc_security_status).

(** ** Calls into the collaborators

    One constructor per callee; the arguments are the actual arguments of the
    call, followed (where there is one) by the value the callee returned. *)
Inductive event : Type :=
  | Ev_gpr_log (severity : gpr_log_severity) (format : string) (args : list log_arg)
  | Ev_ssl_server_credentials_get_config (creds : ptr) (config : ptr)
  | Ev_ssl_server_security_context_create (config : ptr)
      (status : grpc_security_status) (ctx_out : ptr)
  | Ev_fake_server_security_context_create (ctx_ret : ptr)
  | Ev_security_context_unref (ctx_arg : ptr)
  | Ev_blocking_resolve_address (name default_port : string) (resolved : ptr)
  | Ev_resolved_addresses_destroy (resolved : ptr)
  | Ev_tcp_server_create (tcp_ret : ptr)
  | Ev_tcp_server_add_port (tcp_arg : ptr) (a : grpc_resolved_address) (port : Z)
  | Ev_tcp_server_start (tcp_arg : ptr) (pollsets : ptr) (pollset_count : Z)
      (cb : callback) (cb_arg : ptr)
  | Ev_tcp_server_destroy (tcp_arg : ptr)
  | Ev_gpr_malloc (p : ptr)
  | Ev_gpr_free (p : ptr)
  | Ev_server_add_listener (server_arg : ptr) (sp : ptr) (start_cb destroy_cb : callback)
  | Ev_setup_secure_transport (ctx_arg : ptr) (endpoint : ptr)
      (cb : callback) (user : ptr)
  | Ev_server_get_channel_args (server_arg : ptr) (channel_args : ptr)
  | Ev_mdctx_create (mdctx : ptr)
  | Ev_create_chttp2_transport (setup : callback) (setup_arg : ptr)
      (channel_args : ptr) (endpoint : ptr) (slices : ptr) (nslices : Z)
      (mdctx : ptr) (is_client : Z)
  | Ev_server_setup_transport (server_arg : ptr) (transport : ptr)
      (filters : list grpc_channel_filter) (num_filters : Z) (mdctx : ptr).

(** What the collaborators answer.  [grpc_tcp_server_add_port] is indexed by
    the iteration of the binding loop that makes the call, [grpc_mdctx_create]
    by the number of metadata contexts created before. *)
Record collaborators : Type := {
  grpc_ssl_server_credentials_get_config : ptr -> ptr;
  grpc_ssl_server_security_context_create : ptr -> grpc_security_status * ptr;
  grpc_fake_server_security_context_create : ptr;
  grpc_blocking_resolve_address : string -> string -> ptr * grpc_resolved_addresses;
  grpc_tcp_server_create : ptr;
  grpc_tcp_server_add_port : nat -> ptr -> grpc_resolved_address -> Z;
  gpr_malloc : ptr;
  grpc_server_get_channel_args : ptr -> ptr;
  grpc_mdctx_create : nat -> ptr;
  grpc_server_setup_transport :
    ptr -> ptr -> list grpc_channel_filter -> Z -> ptr -> grpc_transport_setup_result
}.

(** The two orders in which a compiler may evaluate the two calls among the
    arguments of [grpc_create_chttp2_transport]. *)
Inductive argument_order : Type := Channel_args_first | Mdctx_first.

(** ** The world: the memory holding [secured_port] objects and the calls
    made so far, oldest first. *)
Record world : Type := {
  heap : gmap Z secured_port;
  trace : list event
}.

Definition emit (e : event) (w : world) : world :=
  {| heap := heap w; trace := trace w ++ [e] |}.

Definition store (p : ptr) (v : secured_port) (w : world) : world :=
  {| heap := <[p := v]> (heap w); trace := trace w |}.

Definition unmap (p : ptr) (w : world) : world :=
  {| heap := delete p (heap w); trace := trace w |}.

(** A call either returns, or the process aborts ([GPR_ASSERT] failed, or a
    pointer that holds no object was dereferenced). *)
Inductive outcome (A : Type) : Type :=
  | Returned (a : A) (w : world)
  | Aborted (w : world).
Arguments Returned {A} a w.
Arguments Aborted {A} w.

Definition final {A} (o : outcome A) : world :=
  match o with Returned _ w => w | Aborted w => w end.

Definition returned {A} (o : outcome A) : option A :=
  match o with Returned a _ => Some a | Aborted _ => None end.

(** The calls made between two worlds. *)
Definition new_events (w w' : world) : list event :=
  drop (length (trace w)) (trace w').

(** ** The callbacks *)

Section Callbacks.

Variable E : collaborators.

(** [static grpc_channel_filter const *extra_filters[]] of [setup_transport]. *)
Definition extra_filters : list grpc_channel_filter :=
  [grpc_http_server_filter; grpc_http_filter].

Definition GPR_ARRAY_SIZE {A} (array : list A) : Z := Z.of_nat (length array).

Definition setup_transport (server transport mdctx : ptr) (w : world)
  : outcome grpc_transport_setup_result :=
  let n := GPR_ARRAY_SIZE extra_filters in
  Returned (grpc_server_setup_transport E server transport extra_filters n mdctx)
           (emit (Ev_server_setup_transport server transport extra_filters n mdctx) w).

Definition is_mdctx_create (e : event) : bool :=
  match e with Ev_mdctx_create _ => true | _ => false end.

(** Number of metadata contexts created so far. *)
Definition mdctx_count (w : world) : nat :=
  length (filter (fun e => is_mdctx_create e = true) (trace w)).

(** [grpc_server_get_channel_args(server)] and [grpc_mdctx_create()] are two
    arguments of the one call of [grpc_create_chttp2_transport]: C leaves the
    order in which they are evaluated to the compiler, so the order is a
    parameter of the function. *)
Definition on_secure_transport_setup_done (order : argument_order)
    (server : ptr) (status : grpc_security_status) (secure_endpoint : ptr)
    (w : world) : outcome unit :=
  if is_security_ok status then
    let channel_args := grpc_server_get_channel_args E server in
    let mdctx := grpc_mdctx_create E (mdctx_count w) in
    let w :=
      match order with
      | Channel_args_first =>
          emit (Ev_mdctx_create mdctx)
            (emit (Ev_server_get_channel_args server channel_args) w)
      | Mdctx_first =>
          emit (Ev_server_get_channel_args server channel_args)
            (emit (Ev_mdctx_create mdctx) w)
      end in
    Returned tt
      (emit (Ev_create_chttp2_transport Fn_setup_transport server channel_args
               secure_endpoint NULL 0 mdctx 0) w)
  else
    Returned tt
      (emit (Ev_gpr_log GPR_ERROR "Secure transport failed with error %d"
               [Arg_status status]) w).

(** Dereferencing [spp] needs a [secured_port] at that address. *)
Definition on_accept (spp : ptr) (tcp_endpoint : ptr) (w : world) : outcome unit :=
  match heap w !! spp with
  | None => Aborted w
  | Some sp =>
      Returned tt
        (emit (Ev_setup_secure_transport (ctx sp) tcp_endpoint
                 Fn_on_secure_transport_setup_done (server sp)) w)
  end.

(** Server callback: start listening on our ports. *)
Definition start (server_arg : ptr) (spp : ptr) (pollsets : ptr) (pollset_count : Z)
    (w : world) : outcome unit :=
  match heap w !! spp with
  | None => Aborted w
  | Some sp =>
      Returned tt
        (emit (Ev_tcp_server_start (tcp sp) pollsets pollset_count Fn_on_accept spp) w)
  end.

(** Server callback: destroy the tcp listener (so we don't generate further
    callbacks). *)
Definition destroy (server_arg : ptr) (spp : ptr) (w : world) : outcome unit :=
  match heap w !! spp with
  | None => Aborted w
  | Some sp =>
      let w := emit (Ev_tcp_server_destroy (tcp sp)) w in
      let w := emit (Ev_security_context_unref (ctx sp)) w in
      Returned tt (unmap spp (emit (Ev_gpr_free spp) w))
  end.

End Callbacks.

(** ** Adding a secure port *)

(** [GPR_ASSERT(x)] is a macro of grpc/support/log.h, which is not among the
    sources: when [x] does not hold it logs the text of [x] with
    [gpr_log(GPR_ERROR, "assertion failed: %s", #x)] and calls [abort()]. *)
Definition assertion_failed (x : string) : event :=
  Ev_gpr_log GPR_ERROR "assertion failed: %s" [Arg_str x].

Section AddPort.

(** The credential type tags of credentials.h, which is not among the
    sources: they are taken as parameters. *)
Variables GRPC_CREDENTIALS_TYPE_SSL GRPC_CREDENTIALS_TYPE_FAKE_TRANSPORT_SECURITY : string.

Variable E : collaborators.

(** The [error:] label, entered with the current values of the locals. *)
Definition goto_error (ctx resolved tcp sp : ptr) (w : world) : outcome Z :=
  let w := if ctx =? NULL then w else emit (Ev_security_context_unref ctx) w in
  let w := if resolved =? NULL then w else emit (Ev_resolved_addresses_destroy resolved) w in
  let w := if tcp =? NULL then w else emit (Ev_tcp_server_destroy tcp) w in
  let w := if sp =? NULL then w else unmap sp (emit (Ev_gpr_free sp) w) in
  Returned 0 w.

(** The loop [for (i = 0; i < resolved->naddrs; i++)], from iteration [i] on,
    over the addresses not yet visited.  It yields [(port_num, count)];
    [GPR_ASSERT(port_num == port_temp)] logs and aborts the process when it
    fails. *)
Fixpoint bind_loop (tcp : ptr) (rest : list grpc_resolved_address) (i : nat)
    (port_num count : Z) (w : world) : outcome (Z * Z) :=
  match rest with
  | [] => Returned (port_num, count) w
  | a :: rest =>
      let port_temp := grpc_tcp_server_add_port E i tcp a in
      let w := emit (Ev_tcp_server_add_port tcp a port_temp) w in
      if port_temp >=? 0 then
        if port_num =? -1 then
          bind_loop tcp rest (S i) port_temp (unsigned_incr count) w
        else if port_num =? port_temp then
          bind_loop tcp rest (S i) port_num (unsigned_incr count) w
        else Aborted (emit (assertion_failed "port_num == port_temp") w)
      else bind_loop tcp rest (S i) port_num count w
  end.

Definition grpc_server_add_secure_http2_port
    (server : ptr) (addr : string) (creds : option grpc_server_credentials)
    (w : world) : outcome Z :=
  let resolved := NULL in
  let tcp := NULL in
  let count := 0 in
  let port_num := -1 in
  let status := GRPC_SECURITY_ERROR in
  let ctx := NULL in
  let sp := NULL in
  (* create security context *)
  match creds with
  | None => goto_error ctx resolved tcp sp w
  | Some c =>
      let '(status, ctx, w) :=
        if String.eqb (type c) GRPC_CREDENTIALS_TYPE_SSL then
          let config := grpc_ssl_server_credentials_get_config E (self c) in
          let w := emit (Ev_ssl_server_credentials_get_config (self c) config) w in
          let '(status, ctx) := grpc_ssl_server_security_context_create E config in
          (status, ctx, emit (Ev_ssl_server_security_context_create config status ctx) w)
        else if String.eqb (type c) GRPC_CREDENTIALS_TYPE_FAKE_TRANSPORT_SECURITY then
          let ctx := grpc_fake_server_security_context_create E in
          (GRPC_SECURITY_OK, ctx, emit (Ev_fake_server_security_context_create ctx) w)
        else (status, ctx, w) in
      if negb (is_security_ok status) then
        goto_error ctx resolved tcp sp
          (emit (Ev_gpr_log GPR_ERROR
                   "Unable to create secure server with credentials of type %s."
                   [Arg_str (type c)]) w)
      else
        (* resolve address *)
        let '(resolved, set) := grpc_blocking_resolve_address E addr "https" in
        let w := emit (Ev_blocking_resolve_address addr "https" resolved) w in
        if resolved =? NULL then goto_error ctx resolved tcp sp w
        else
          let tcp := grpc_tcp_server_create E in
          let w := emit (Ev_tcp_server_create tcp) w in
          if tcp =? NULL then goto_error ctx resolved tcp sp w
          else
            match bind_loop tcp (addrs set) 0 port_num count w with
            | Aborted w => Aborted w
            | Returned (port_num, count) w =>
                if count =? 0 then
                  goto_error ctx resolved tcp sp
                    (emit (Ev_gpr_log GPR_ERROR
                             "No address added out of total %d resolved"
                             [Arg_int (naddrs set)]) w)
                else
                  let w :=
                    if negb (count =? naddrs set) then
                      emit (Ev_gpr_log GPR_ERROR
                              "Only %d addresses added out of total %d resolved"
                              [Arg_int count; Arg_int (naddrs set)]) w
                    else w in
                  let w := emit (Ev_resolved_addresses_destroy resolved) w in
                  let sp := gpr_malloc E in
                  let w := emit (Ev_gpr_malloc sp) w in
                  let w := store sp {| tcp := tcp; ctx := ctx; server := server |} w in
                  (* Register with the server only upon success *)
                  let w := emit (Ev_server_add_listener server sp Fn_start Fn_destroy) w in
                  Returned port_num w
            end
  end.

End AddPort.

(** ** Observations on a run *)

Definition emits (evs : list event) (w : world) : world :=
  {| heap := heap w; trace := trace w ++ evs |}.

(** The answers of [grpc_tcp_server_add_port] along the binding loop, and the
    calls that obtain them. *)
Fixpoint bind_results (E : collaborators) (tcp : ptr)
    (rest : list grpc_resolved_address) (i : nat) : list Z :=
  match rest with
  | [] => []
  | a :: rest => grpc_tcp_server_add_port E i tcp a :: bind_results E tcp rest (S i)
  end.

Fixpoint bind_events (E : collaborators) (tcp : ptr)
    (rest : list grpc_resolved_address) (i : nat) : list event :=
  match rest with
  | [] => []
  | a :: rest =>
      Ev_tcp_server_add_port tcp a (grpc_tcp_server_add_port E i tcp a)
        :: bind_events E tcp rest (S i)
  end.

(** A bind succeeded when it answered a port number, that is, no negative
    value. *)
Definition successes (results : list Z) : list Z := filter (fun r => 0 <= r) results.

(** The port of the first successful bind, the value of [count] when the
    binding loop is left, and whether the successful binds agree on the port. *)
Definition first_success (results : list Z) : option Z := head (successes results).

Definition counted (results : list Z) : Z :=
  Nat.iter (length (successes results)) unsigned_incr 0.

Definition agree (results : list Z) : Prop :=
  forall x y, x ∈ successes results -> y ∈ successes results -> x = y.

Definition is_add_listener (e : event) : bool :=
  match e with Ev_server_add_listener _ _ _ _ => true | _ => false end.

(** Whether a listener is registered with the server among these calls. *)
Definition registers (evs : list event) : bool := existsb is_add_listener evs.

(** Calls that belong to the stages after the context creation. *)
Definition past_context (e : event) : bool :=
  match e with
  | Ev_blocking_resolve_address _ _ _ | Ev_tcp_server_create _
  | Ev_tcp_server_add_port _ _ _ | Ev_gpr_malloc _
  | Ev_server_add_listener _ _ _ _ => true
  | _ => false
  end.

(** Whether a transport is constructed, and whether a handshake is started,
    among these calls. *)
Definition is_create_transport (e : event) : bool :=
  match e with Ev_create_chttp2_transport _ _ _ _ _ _ _ _ => true | _ => false end.

Definition is_setup_secure_transport (e : event) : bool :=
  match e with Ev_setup_secure_transport _ _ _ _ => true | _ => false end.

Definition creates_transport (evs : list event) : bool := existsb is_create_transport evs.

Definition starts_handshake (evs : list event) : bool :=
  existsb is_setup_secure_transport evs.

(** The transport calls the setup function it was given through the function
    pointer; of the functions of this file only [setup_transport] has that
    type. *)
Definition invoke_setup (E : collaborators) (cb : callback)
    (arg transport mdctx : ptr) (w : world) : outcome grpc_transport_setup_result :=
  match cb with
  | Fn_setup_transport => setup_transport E arg transport mdctx w
  | _ => Aborted w
  end.

(** *** Resources

    What a call hands to its caller, and what a call takes back.  A null
    pointer is no object. *)
Inductive resource : Type :=
  | Security_context (p : ptr)
  | Resolved_addresses (p : ptr)
  | Tcp_server (p : ptr)
  | Secured_port_storage (p : ptr).

#[global] Instance resource_eq_dec : EqDecision resource.
Proof. solve_decision. Defined.

Definition object (mk : ptr -> resource) (p : ptr) : option resource :=
  if p =? NULL then None else Some (mk p).

Definition acquired (e : event) : option resource :=
  match e with
  | Ev_ssl_server_security_context_create _ _ p => object Security_context p
  | Ev_fake_server_security_context_create p => object Security_context p
  | Ev_blocking_resolve_address _ _ p => object Resolved_addresses p
  | Ev_tcp_server_create p => object Tcp_server p
  | Ev_gpr_malloc p => object Secured_port_storage p
  | _ => None
  end.

Definition released (e : event) : option resource :=
  match e with
  | Ev_security_context_unref p => object Security_context p
  | Ev_resolved_addresses_destroy p => object Resolved_addresses p
  | Ev_tcp_server_destroy p => object Tcp_server p
  | Ev_gpr_free p => object Secured_port_storage p
  | _ => None
  end.

(** Take one [r] out of [held]; [None] when there is none to take. *)
Fixpoint give_back (r : resource) (held : list resource) : option (list resource) :=
  match held with
  | [] => None
  | r' :: held =>
      if decide (r = r') then Some held
      else match give_back r held with
           | Some held => Some (r' :: held)
           | None => None
           end
  end.

(** The resources held after the calls [evs], starting from [held]; [None]
    when some call releases what is not held (a double release). *)
Fixpoint live (held : list resource) (evs : list event) : option (list resource) :=
  match evs with
  | [] => Some held
  | e :: evs =>
      let held := match acquired e with Some r => held ++ [r] | None => held end in
      match released e with
      | None => live held evs
      | Some r =>
          match give_back r held with
          | Some held => live held evs
          | None => None
          end
      end
  end.

(** The resource behind a pointer, if it is not null. *)
Definition holding (mk : ptr -> resource) (p : ptr) : list resource :=
  option_list (object mk p).

(** *** The calls of the error path and the three log lines *)

(** [if (ctx) grpc_security_context_unref(ctx)]. *)
Definition unref_if (ctx : ptr) : list event :=
  if ctx =? NULL then [] else [Ev_security_context_unref ctx].

Definition log_unable (c : grpc_server_credentials) : event :=
  Ev_gpr_log GPR_ERROR "Unable to create secure server with credentials of type %s."
    [Arg_str (type c)].

Definition log_none (set : grpc_resolved_addresses) : event :=
  Ev_gpr_log GPR_ERROR "No address added out of total %d resolved" [Arg_int (naddrs set)].

Definition log_only (count : Z) (set : grpc_resolved_addresses) : event :=
  Ev_gpr_log GPR_ERROR "Only %d addresses added out of total %d resolved"
    [Arg_int count; Arg_int (naddrs set)].

(** The calls from the binding loop on: when the call ends on the error path,
    and when it ends with the registration. *)
Definition binding_failure_calls (E : collaborators) (ctx resolved tcp : ptr)
    (set : grpc_resolved_addresses) : list event :=
  bind_events E tcp (addrs set) 0 ++ [log_none set] ++ unref_if ctx
    ++ [Ev_resolved_addresses_destroy resolved; Ev_tcp_server_destroy tcp].

Definition binding_success_calls (E : collaborators) (server resolved tcp : ptr)
    (set : grpc_resolved_addresses) : list event :=
  let n := counted (bind_results E tcp (addrs set) 0) in
  bind_events E tcp (addrs set) 0
    ++ (if negb (n =? naddrs set) then [log_only n set] else [])
    ++ [Ev_resolved_addresses_destroy resolved;
        Ev_gpr_malloc (gpr_malloc E);
        Ev_server_add_listener server (gpr_malloc E) Fn_start Fn_destroy].

(** The log lines among these calls, and the binds attempted among them (the
    tcp server and the address of each, in order). *)
Definition is_log (e : event) : bool :=
  match e with Ev_gpr_log _ _ _ => true | _ => false end.

Definition logs (evs : list event) : list event :=
  filter (fun e => is_log e = true) evs.

Definition bind_attempt (e : event) : option (ptr * grpc_resolved_address) :=
  match e with Ev_tcp_server_add_port t a _ => Some (t, a) | _ => None end.

Definition bind_attempts (evs : list event) : list (ptr * grpc_resolved_address) :=
  omap bind_attempt evs.

(** How many listeners these calls register. *)
Definition registrations (evs : list event) : nat :=
  length (filter (fun e => is_add_listener e = true) evs).

(** The three calls of [destroy] on the [secured_port] [sp] at [spp]. *)
Definition destroy_calls (spp : ptr) (sp : secured_port) : list event :=
  [Ev_tcp_server_destroy (tcp sp); Ev_security_context_unref (ctx sp); Ev_gpr_free spp].

(** The calls to a construction routine of security contexts among these
    calls. *)
Definition is_context_create (e : event) : bool :=
  match e with
  | Ev_ssl_server_security_context_create _ _ _
  | Ev_fake_server_security_context_create _ => true
  | _ => false
  end.

Definition creations (evs : list event) : list event :=
  filter (fun e => is_context_create e = true) evs.

(** ** The stages of adding a port, as conditions on the inputs *)

Section Stages.

Variables GRPC_CREDENTIALS_TYPE_SSL GRPC_CREDENTIALS_TYPE_FAKE_TRANSPORT_SECURITY : string.

Variable E : collaborators.

(** The credential is of a recognised variant whose construction routine
    answered a context: the context, and the calls that produced it. *)
Inductive context_created (c : grpc_server_credentials) : ptr -> list event -> Prop :=
  | created_ssl config ctx :
      type c = GRPC_CREDENTIALS_TYPE_SSL ->
      config = grpc_ssl_server_credentials_get_config E (self c) ->
      grpc_ssl_server_security_context_create E config = (GRPC_SECURITY_OK, ctx) ->
      context_created c ctx
        [Ev_ssl_server_credentials_get_config (self c) config;
         Ev_ssl_server_security_context_create config GRPC_SECURITY_OK ctx]
  | created_fake ctx :
      type c <> GRPC_CREDENTIALS_TYPE_SSL ->
      type c = GRPC_CREDENTIALS_TYPE_FAKE_TRANSPORT_SECURITY ->
      ctx = grpc_fake_server_security_context_create E ->
      context_created c ctx [Ev_fake_server_security_context_create ctx].

(** The credential is null, or of no recognised variant, or the construction
    routine of its variant failed. *)
Inductive context_failure : option grpc_server_credentials -> Prop :=
  | failure_null : context_failure None
  | failure_unrecognized c :
      type c <> GRPC_CREDENTIALS_TYPE_SSL ->
      type c <> GRPC_CREDENTIALS_TYPE_FAKE_TRANSPORT_SECURITY ->
      context_failure (Some c)
  | failure_construction c status ctx :
      type c = GRPC_CREDENTIALS_TYPE_SSL ->
      grpc_ssl_server_security_context_create E
        (grpc_ssl_server_credentials_get_config E (self c)) = (status, ctx) ->
      status <> GRPC_SECURITY_OK ->
      context_failure (Some c).

(** The binding loop is reached: a context was created, the address was
    resolved to [set] (at [resolved]) and the tcp server [tcp] was created.
    [pre] are the calls made up to there. *)
Inductive binding_reached (addr : string) (creds : option grpc_server_credentials)
    : ptr -> ptr -> grpc_resolved_addresses -> ptr -> list event -> Prop :=
  | reached c ctx evs resolved set tcp :
      creds = Some c ->
      context_created c ctx evs ->
      grpc_blocking_resolve_address E addr "https" = (resolved, set) ->
      resolved <> NULL ->
      tcp = grpc_tcp_server_create E ->
      tcp <> NULL ->
      binding_reached addr creds ctx resolved set tcp
        (evs ++ [Ev_blocking_resolve_address addr "https" resolved;
                 Ev_tcp_server_create tcp]).

(** The failures of [grpc_server_add_secure_http2_port], stage by stage. *)
Inductive failure_stage (addr : string) (creds : option grpc_server_credentials) : Prop :=
  | fails_context :
      context_failure creds -> failure_stage addr creds
  | fails_resolution c ctx evs :
      creds = Some c ->
      context_created c ctx evs ->
      fst (grpc_blocking_resolve_address E addr "https") = NULL ->
      failure_stage addr creds
  | fails_listener_creation c ctx evs :
      creds = Some c ->
      context_created c ctx evs ->
      fst (grpc_blocking_resolve_address E addr "https") <> NULL ->
      grpc_tcp_server_create E = NULL ->
      failure_stage addr creds
  | fails_binding ctx resolved set tcp pre :
      binding_reached addr creds ctx resolved set tcp pre ->
      successes (bind_results E tcp (addrs set) 0) = [] ->
      failure_stage addr creds.

End Stages.

(** ** A concrete setting

    The two type tags as credentials.h spells them, three credentials, and
    collaborators whose answers are fixed: the status of the SSL context
    construction, the pointers answered by the resolution and by the tcp server
    creation, and the answer of each bind in turn. *)
Definition SSL_TAG : string := "Ssl".
Definition FAKE_TAG : string := "FakeTransportSecurity".

Definition ssl_credentials : grpc_server_credentials := {| self := 101; type := SSL_TAG |}.
Definition fake_credentials : grpc_server_credentials := {| self := 102; type := FAKE_TAG |}.
Definition other_credentials : grpc_server_credentials := {| self := 103; type := "Oauth2" |}.

Definition an_address : grpc_resolved_address := {| addr := []; len := 16 |}.

Definition sample (ssl_status : grpc_security_status) (resolved tcp : ptr) (ports : list Z)
    : collaborators :=
  {| grpc_ssl_server_credentials_get_config := fun creds => creds + 1000;
     grpc_ssl_server_security_context_create :=
       fun _ => (ssl_status, if is_security_ok ssl_status then 200 else NULL);
     grpc_fake_server_security_context_create := 201;
     grpc_blocking_resolve_address :=
       fun _ _ => (resolved, {| addrs := map (fun _ => an_address) ports |});
     grpc_tcp_server_create := tcp;
     grpc_tcp_server_add_port := fun i _ _ => nth i ports (-1);
     gpr_malloc := 500;
     grpc_server_get_channel_args := fun server => server + 7;
     grpc_mdctx_create := fun n => 600 + Z.of_nat n;
     grpc_server_setup_transport := fun _ _ _ _ _ => {| user_data := 0; callbacks := 0 |} |}.

Definition empty_world : world := {| heap := ∅; trace := [] |}.

(** Adding a port on "localhost:0" to server 1 with the fake credentials. *)
Definition add_fake_port (resolved tcp : ptr) (ports : list Z) : outcome Z :=
  grpc_server_add_secure_http2_port SSL_TAG FAKE_TAG
    (sample GRPC_SECURITY_OK resolved tcp ports) 1 "localhost:0"
    (Some fake_credentials) empty_world.

(** The same call with a null credential. *)
Definition add_null_port (ports : list Z) : outcome Z :=
  grpc_server_add_secure_http2_port SSL_TAG FAKE_TAG
    (sample GRPC_SECURITY_OK 300 400 ports) 1 "localhost:0" None empty_world.

(** The calls made before the binding loop in [add_fake_port]. *)
Definition fake_port_prelude (resolved tcp : ptr) : list event :=
  [Ev_fake_server_security_context_create 201;
   Ev_blocking_resolve_address "localhost:0" "https" resolved;
   Ev_tcp_server_create tcp].

(** The world after the fake port was added on port 8443, and a world holding
    two [secured_port]s. *)
Definition one_port_world : world := final (add_fake_port 300 400 [8443]).

Definition two_ports_world : world :=
  {| heap := <[500 := {| tcp := 400; ctx := 201; server := 1 |}]>
               (<[501 := {| tcp := 401; ctx := 202; server := 1 |}]> ∅);
     trace := [] |}.

(** ** Facts about the world *)

Lemma emits_nil w : emits [] w = w.
Proof. destruct w as [h t]. unfold emits; simpl. by rewrite app_nil_r. Qed.

Lemma emits_cons e evs w : emits (e :: evs) w = emits evs (emit e w).
Proof. unfold emits, emit; simpl. by rewrite <- app_assoc. Qed.

Lemma emit_emits e w : emit e w = emits [e] w.
Proof. reflexivity. Qed.

Lemma emits_emits evs1 evs2 w : emits evs2 (emits evs1 w) = emits (evs1 ++ evs2) w.
Proof. unfold emits; simpl. by rewrite app_assoc. Qed.

Lemma new_events_emits evs w : new_events w (emits evs w) = evs.
Proof. unfold new_events, emits; simpl. by rewrite drop_app_length. Qed.

Lemma new_events_store p v evs w : new_events w (store p v (emits evs w)) = evs.
Proof. unfold new_events, store, emits; simpl. by rewrite drop_app_length. Qed.

Lemma store_emits p v evs w : store p v (emits evs w) = emits evs (store p v w).
Proof. reflexivity. Qed.

Lemma registers_app evs1 evs2 : registers (evs1 ++ evs2) = registers evs1 || registers evs2.
Proof. apply existsb_app. Qed.

Lemma registers_bind_events E tcp rest i : registers (bind_events E tcp rest i) = false.
Proof. revert i. induction rest as [|a rest IH]; intros i; simpl; [done | apply IH]. Qed.

Lemma registers_take k evs : registers evs = false -> registers (take k evs) = false.
Proof.
  revert k. induction evs as [|e evs IH]; intros [|k]; simpl; try done.
  intros [He Hr]%orb_false_iff. rewrite He; simpl. by apply IH.
Qed.

Lemma unsigned_incr_iter n : (n <= UINT_MAX)%Z -> (0 <= n)%Z ->
  Nat.iter (Z.to_nat n) unsigned_incr 0 = n.
Proof.
  intros Hmax Hn. rewrite <- (Z2Nat.id n) in Hmax by lia.
  rewrite <- (Z2Nat.id n) at 2 by lia.
  induction (Z.to_nat n) as [|k IH]; simpl; [done |].
  rewrite IH by lia. unfold unsigned_incr, UINT_MAX in *.
  rewrite Z.mod_small; lia.
Qed.

(** ** Facts about the binding loop *)

Lemma successes_cons_ok r rs : 0 <= r -> successes (r :: rs) = r :: successes rs.
Proof. intros H. unfold successes. by rewrite filter_cons_True. Qed.

Lemma successes_cons_fail r rs : r < 0 -> successes (r :: rs) = successes rs.
Proof. intros H. unfold successes. rewrite filter_cons_False; [done | lia]. Qed.

Lemma successes_nonneg r rs : r ∈ successes rs -> 0 <= r.
Proof. unfold successes. by intros [H _]%list_elem_of_filter. Qed.

(** What the loop has done when it is left, either way. *)
Lemma bind_loop_inv E tcp rest : forall i p c w,
  p = -1 \/ 0 <= p ->
  match bind_loop E tcp rest i p c w with
  | Returned (p', c') w' =>
      w' = emits (bind_events E tcp rest i) w /\
      c' = Nat.iter (length (successes (bind_results E tcp rest i))) unsigned_incr c /\
      p' = (if p =? -1 then default (-1) (head (successes (bind_results E tcp rest i)))
            else p) /\
      Forall (fun r => r = p') (successes (bind_results E tcp rest i))
  | Aborted w' =>
      (exists k, w' = emits (take k (bind_events E tcp rest i)
                            ++ [assertion_failed "port_num == port_temp"]) w) /\
      exists x y,
        (x = p /\ p <> -1 \/ x ∈ successes (bind_results E tcp rest i)) /\
        y ∈ successes (bind_results E tcp rest i) /\ x <> y
  end.
Proof.
  induction rest as [|a rest IH]; intros i p c w Hp; simpl.
  - rewrite emits_nil. repeat split; [by destruct (Z.eqb_spec p (-1)) | constructor].
  - set (pt := grpc_tcp_server_add_port E i tcp a).
    destruct (Z.geb_spec pt 0) as [Hpt|Hpt].
    + rewrite successes_cons_ok by lia.
      destruct (Z.eqb_spec p (-1)) as [->|Hne].
      * specialize (IH (S i) pt (unsigned_incr c) (emit (Ev_tcp_server_add_port tcp a pt) w)).
        destruct (bind_loop _ _ _ _ _ _ _) as [[p' c'] w'|w'].
        -- destruct IH as (-> & -> & Hp' & Hall); [lia |].
           destruct (Z.eqb_spec pt (-1)) as [?|_]; [lia |]. subst p'.
           rewrite emits_cons. cbn [length]. rewrite Nat.iter_succ_r.
           repeat split; by try constructor.
        -- destruct IH as ([k ->] & x & y & Hx & Hy & Hxy); [lia |]. split.
           ++ exists (S k). cbn [take app]. by rewrite emits_cons.
           ++ exists x, y. repeat split; [| by right | done].
              right. destruct Hx as [[-> _]|Hx]; [left | by right].
      * assert (0 <= p) by lia.
        destruct (Z.eqb_spec p pt) as [<-|Hdiff].
        -- specialize (IH (S i) p (unsigned_incr c) (emit (Ev_tcp_server_add_port tcp a p) w)).
           destruct (bind_loop _ _ _ _ _ _ _) as [[p' c'] w'|w'].
           ++ destruct IH as (-> & -> & Hp' & Hall); [lia |].
              destruct (Z.eqb_spec p (-1)) as [?|_]; [lia |]. subst p'.
              rewrite emits_cons. cbn [length]. rewrite Nat.iter_succ_r.
              repeat split; by try constructor.
           ++ destruct IH as ([k ->] & x & y & Hx & Hy & Hxy); [lia |]. split.
              ** exists (S k). cbn [take app]. by rewrite emits_cons.
              ** exists x, y. repeat split; [| by right | done].
                 destruct Hx as [[-> _]|Hx]; [by left | by right; right].
        -- split.
           ++ exists 1%nat. cbn [take]. by rewrite take_0, !emit_emits, emits_emits.
           ++ exists p, pt. repeat split; [by left | by left | done].
    + rewrite successes_cons_fail by lia.
      specialize (IH (S i) p c (emit (Ev_tcp_server_add_port tcp a pt) w) Hp).
      destruct (bind_loop _ _ _ _ _ _ _) as [[p' c'] w'|w'].
      * destruct IH as (-> & -> & Hp' & Hall). rewrite emits_cons. by repeat split.
      * destruct IH as ([k ->] & x & y & Hx & Hy & Hxy). split.
        -- exists (S k). cbn [take app]. by rewrite emits_cons.
        -- by exists x, y.
Qed.

(** ** Facts about resources *)

Lemma object_null mk : object mk NULL = None.
Proof. reflexivity. Qed.

Lemma object_nonnull mk p : p <> NULL -> object mk p = Some (mk p).
Proof. intros H. unfold object. by destruct (Z.eqb_spec p NULL). Qed.

Lemma give_back_head r held : give_back r (r :: held) = Some held.
Proof. simpl. by rewrite decide_True. Qed.

Lemma live_app held evs1 evs2 :
  live held (evs1 ++ evs2) = live held evs1 ≫= fun held' => live held' evs2.
Proof.
  revert held. induction evs1 as [|e evs1 IH]; intros held; simpl; [done |].
  destruct (released e) as [r|]; [| apply IH].
  destruct (give_back r _) as [held'|]; [apply IH | done].
Qed.

Lemma live_app_Some held held' evs1 evs2 :
  live held evs1 = Some held' -> live held (evs1 ++ evs2) = live held' evs2.
Proof. intros H. by rewrite live_app, H. Qed.

Lemma live_destroy_resolved r held evs :
  r <> NULL ->
  live (Resolved_addresses r :: held) (Ev_resolved_addresses_destroy r :: evs) = live held evs.
Proof.
  intros H. cbn [live acquired released]. by rewrite object_nonnull, give_back_head.
Qed.

Lemma live_destroy_tcp t held evs :
  t <> NULL ->
  live (Tcp_server t :: held) (Ev_tcp_server_destroy t :: evs) = live held evs.
Proof.
  intros H. cbn [live acquired released]. by rewrite object_nonnull, give_back_head.
Qed.

Lemma live_bind_events E tcp rest i held :
  live held (bind_events E tcp rest i) = Some held.
Proof. revert i. induction rest as [|a rest IH]; intros i; simpl; [done | apply IH]. Qed.

Lemma live_log held sev fmt args evs :
  live held (Ev_gpr_log sev fmt args :: evs) = live held evs.
Proof. reflexivity. Qed.

Lemma live_unref_if ctx held :
  live (holding Security_context ctx ++ held) (unref_if ctx) = Some held.
Proof.
  unfold unref_if, holding, object.
  destruct (Z.eqb_spec ctx NULL) as [->|Hne]; simpl; [done |].
  unfold object. destruct (Z.eqb_spec ctx NULL); [done |]. simpl.
  by rewrite decide_True.
Qed.

Lemma registers_unref_if ctx : registers (unref_if ctx) = false.
Proof. unfold unref_if. by destruct (ctx =? NULL). Qed.

Section AddPortFacts.

Variables GRPC_CREDENTIALS_TYPE_SSL GRPC_CREDENTIALS_TYPE_FAKE_TRANSPORT_SECURITY : string.

Variable E : collaborators.

Local Abbreviation add_port :=
  (grpc_server_add_secure_http2_port
     GRPC_CREDENTIALS_TYPE_SSL GRPC_CREDENTIALS_TYPE_FAKE_TRANSPORT_SECURITY E).
Local Abbreviation context_created :=
  (context_created GRPC_CREDENTIALS_TYPE_SSL GRPC_CREDENTIALS_TYPE_FAKE_TRANSPORT_SECURITY E).
Local Abbreviation context_failure :=
  (context_failure GRPC_CREDENTIALS_TYPE_SSL GRPC_CREDENTIALS_TYPE_FAKE_TRANSPORT_SECURITY E).
Local Abbreviation binding_reached :=
  (binding_reached GRPC_CREDENTIALS_TYPE_SSL GRPC_CREDENTIALS_TYPE_FAKE_TRANSPORT_SECURITY E).
Local Abbreviation failure_stage :=
  (failure_stage GRPC_CREDENTIALS_TYPE_SSL GRPC_CREDENTIALS_TYPE_FAKE_TRANSPORT_SECURITY E).

Lemma goto_error_run ctx resolved tcp w :
  goto_error ctx resolved tcp NULL w =
  Returned 0
    (emits (unref_if ctx
            ++ (if resolved =? NULL then [] else [Ev_resolved_addresses_destroy resolved])
            ++ (if tcp =? NULL then [] else [Ev_tcp_server_destroy tcp])) w).
Proof.
  unfold goto_error, unref_if. simpl.
  destruct (ctx =? NULL), (resolved =? NULL), (tcp =? NULL); simpl;
    rewrite ?emit_emits, ?emits_emits, ?emits_nil; reflexivity.
Qed.

Lemma run_null server addr w :
  add_port server addr None w = Returned 0 w.
Proof. reflexivity. Qed.

Lemma run_unrecognized server addr c w :
  type c <> GRPC_CREDENTIALS_TYPE_SSL ->
  type c <> GRPC_CREDENTIALS_TYPE_FAKE_TRANSPORT_SECURITY ->
  add_port server addr (Some c) w = Returned 0 (emits [log_unable c] w).
Proof.
  intros Hssl Hfake. unfold grpc_server_add_secure_http2_port.
  destruct (String.eqb_spec (type c) GRPC_CREDENTIALS_TYPE_SSL); [done |].
  destruct (String.eqb_spec (type c) GRPC_CREDENTIALS_TYPE_FAKE_TRANSPORT_SECURITY); [done |].
  reflexivity.
Qed.

Lemma run_construction_failure server addr c status ctx w :
  type c = GRPC_CREDENTIALS_TYPE_SSL ->
  grpc_ssl_server_security_context_create E
    (grpc_ssl_server_credentials_get_config E (self c)) = (status, ctx) ->
  status <> GRPC_SECURITY_OK ->
  add_port server addr (Some c) w =
  Returned 0
    (emits ([Ev_ssl_server_credentials_get_config (self c)
               (grpc_ssl_server_credentials_get_config E (self c));
             Ev_ssl_server_security_context_create
               (grpc_ssl_server_credentials_get_config E (self c)) status ctx;
             log_unable c] ++ unref_if ctx) w).
Proof.
  intros Hssl Hcreate Hst. unfold grpc_server_add_secure_http2_port.
  destruct (String.eqb_spec (type c) GRPC_CREDENTIALS_TYPE_SSL); [| done].
  rewrite Hcreate.
  assert (is_security_ok status = false) as -> by by destruct status.
  cbn [negb]. rewrite goto_error_run. cbn [Z.eqb NULL]. rewrite !app_nil_r.
  rewrite !emit_emits, !emits_emits. reflexivity.
Qed.

(** Once a context is created, the call goes on with the resolution. *)
Lemma run_created server addr c ctx evs w :
  context_created c ctx evs ->
  add_port server addr (Some c) w =
  let '(resolved, set) := grpc_blocking_resolve_address E addr "https" in
  let w := emits (evs ++ [Ev_blocking_resolve_address addr "https" resolved]) w in
  if resolved =? NULL then goto_error ctx resolved NULL NULL w
  else
    let tcp := grpc_tcp_server_create E in
    let w := emit (Ev_tcp_server_create tcp) w in
    if tcp =? NULL then goto_error ctx resolved tcp NULL w
    else
      match bind_loop E tcp (addrs set) 0 (-1) 0 w with
      | Aborted w => Aborted w
      | Returned (port_num, count) w =>
          if count =? 0 then goto_error ctx resolved tcp NULL (emit (log_none set) w)
          else
            let w := if negb (count =? naddrs set) then emit (log_only count set) w else w in
            let sp := gpr_malloc E in
            Returned port_num
              (emit (Ev_server_add_listener server sp Fn_start Fn_destroy)
                 (store sp {| tcp := tcp; ctx := ctx; server := server |}
                    (emit (Ev_gpr_malloc sp)
                       (emit (Ev_resolved_addresses_destroy resolved) w))))
      end.
Proof.
  intros Hc. unfold grpc_server_add_secure_http2_port.
  destruct Hc as [config ctx Hssl -> Hcreate | ctx Hssl Hfake ->].
  - destruct (String.eqb_spec (type c) GRPC_CREDENTIALS_TYPE_SSL); [| done].
    rewrite Hcreate. cbn [is_security_ok negb].
    destruct (grpc_blocking_resolve_address E addr "https") as [resolved set].
    rewrite !emit_emits, !emits_emits. reflexivity.
  - destruct (String.eqb_spec (type c) GRPC_CREDENTIALS_TYPE_SSL); [done |].
    destruct (String.eqb_spec (type c) GRPC_CREDENTIALS_TYPE_FAKE_TRANSPORT_SECURITY);
      [| done].
    cbn [is_security_ok negb].
    destruct (grpc_blocking_resolve_address E addr "https") as [resolved set].
    rewrite !emit_emits, !emits_emits. reflexivity.
Qed.

Lemma run_resolution_failure server addr c ctx evs w :
  context_created c ctx evs ->
  fst (grpc_blocking_resolve_address E addr "https") = NULL ->
  add_port server addr (Some c) w =
  Returned 0 (emits (evs ++ [Ev_blocking_resolve_address addr "https" NULL]
                     ++ unref_if ctx) w).
Proof.
  intros Hc Hr. rewrite (run_created _ _ _ _ _ _ Hc).
  destruct (grpc_blocking_resolve_address E addr "https") as [resolved set].
  simpl in Hr. subst resolved. cbn [Z.eqb NULL].
  rewrite goto_error_run. cbn [Z.eqb NULL]. rewrite !app_nil_r, emits_emits.
  by rewrite <- app_assoc.
Qed.

Lemma run_listener_failure server addr c ctx evs w :
  context_created c ctx evs ->
  fst (grpc_blocking_resolve_address E addr "https") <> NULL ->
  grpc_tcp_server_create E = NULL ->
  let resolved := fst (grpc_blocking_resolve_address E addr "https") in
  add_port server addr (Some c) w =
  Returned 0 (emits (evs ++ [Ev_blocking_resolve_address addr "https" resolved;
                             Ev_tcp_server_create NULL]
                     ++ unref_if ctx ++ [Ev_resolved_addresses_destroy resolved]) w).
Proof.
  intros Hc Hr Htcp. rewrite (run_created _ _ _ _ _ _ Hc).
  destruct (grpc_blocking_resolve_address E addr "https") as [resolved set].
  simpl in *. destruct (Z.eqb_spec resolved NULL) as [?|_]; [done |].
  rewrite Htcp. cbn [Z.eqb NULL]. rewrite goto_error_run.
  destruct (Z.eqb_spec resolved NULL) as [?|_]; [done |]. cbn [Z.eqb NULL].
  rewrite app_nil_r, emit_emits, !emits_emits. f_equal. f_equal.
  by rewrite <- !app_assoc.
Qed.

(** Once the binding loop is reached, the call is the loop and what follows. *)
Lemma run_binding server addr creds ctx resolved set tcp pre w :
  binding_reached addr creds ctx resolved set tcp pre ->
  add_port server addr creds w =
  match bind_loop E tcp (addrs set) 0 (-1) 0 (emits pre w) with
  | Aborted w => Aborted w
  | Returned (port_num, count) w =>
      if count =? 0 then
        Returned 0 (emits ([log_none set] ++ unref_if ctx
                           ++ [Ev_resolved_addresses_destroy resolved;
                               Ev_tcp_server_destroy tcp]) w)
      else
        Returned port_num
          (store (gpr_malloc E) {| tcp := tcp; ctx := ctx; server := server |}
             (emits ((if negb (count =? naddrs set) then [log_only count set] else [])
                     ++ [Ev_resolved_addresses_destroy resolved;
                         Ev_gpr_malloc (gpr_malloc E);
                         Ev_server_add_listener server (gpr_malloc E) Fn_start Fn_destroy])
                w))
  end.
Proof.
  intros [c ctx' evs r set' tcp' -> Hc Hres Hr -> Htcp].
  rewrite (run_created _ _ _ _ _ _ Hc), Hres.
  destruct (Z.eqb_spec r NULL) as [?|_]; [done |]. cbv zeta.
  destruct (Z.eqb_spec (grpc_tcp_server_create E) NULL) as [?|_]; [done |].
  rewrite (emit_emits (Ev_tcp_server_create _)), emits_emits, <- app_assoc. cbn [app].
  destruct (bind_loop _ _ _ _ _ _ _) as [[p n] w'|w']; [| done].
  destruct (n =? 0).
  - rewrite goto_error_run.
    destruct (Z.eqb_spec r NULL) as [?|_]; [done |].
    destruct (Z.eqb_spec (grpc_tcp_server_create E) NULL) as [?|_]; [done |].
    rewrite emit_emits, emits_emits. reflexivity.
  - f_equal. destruct (negb (n =? naddrs set'));
      rewrite ?emit_emits, ?emits_emits, !store_emits, ?emits_emits;
      f_equal; by rewrite <- ?app_assoc.
Qed.

(** The three ways out of the binding loop. *)
Lemma run_binding_cases server addr creds ctx resolved set tcp pre w :
  binding_reached addr creds ctx resolved set tcp pre ->
  let rs := bind_results E tcp (addrs set) 0 in
  let o := add_port server addr creds w in
  (~ agree rs /\
   exists k, o = Aborted (emits (pre ++ take k (bind_events E tcp (addrs set) 0)
                                 ++ [assertion_failed "port_num == port_temp"]) w))
  \/ (agree rs /\ counted rs = 0 /\
      o = Returned 0 (emits (pre ++ binding_failure_calls E ctx resolved tcp set) w))
  \/ (agree rs /\ counted rs <> 0 /\
      exists p, first_success rs = Some p /\
      o = Returned p
            (store (gpr_malloc E) {| tcp := tcp; ctx := ctx; server := server |}
               (emits (pre ++ binding_success_calls E server resolved tcp set) w))).
Proof.
  intros Hreach rs o. subst o. rewrite (run_binding _ _ _ _ _ _ _ _ _ Hreach).
  pose proof (bind_loop_inv E tcp (addrs set) 0 (-1) 0 (emits pre w) (or_introl eq_refl))
    as Hinv.
  destruct (bind_loop _ _ _ _ _ _ _) as [[p n] w'|w'].
  - destruct Hinv as (-> & -> & -> & Hall). fold rs in Hall |- *.
    cbn [Z.eqb Pos.eqb] in Hall |- *.
    assert (agree rs) as Hagree.
    { intros x y Hx Hy. rewrite Forall_forall in Hall.
      by rewrite (Hall x Hx), (Hall y Hy). }
    right. fold (counted rs). destruct (Z.eqb_spec (counted rs) 0) as [Hz|Hnz].
    + left. repeat split; [done.. |]. unfold binding_failure_calls.
      by rewrite !emits_emits, <- ?app_assoc.
    + right. repeat split; [done.. |].
      destruct (successes rs) as [|q qs] eqn:Hs.
      { exfalso. apply Hnz. unfold counted. by rewrite Hs. }
      exists q. unfold first_success. rewrite Hs. split; [done |].
      unfold binding_success_calls. fold rs. cbn [default head].
      by rewrite !emits_emits, <- ?app_assoc.
  - destruct Hinv as ([k ->] & x & y & Hx & Hy & Hxy). left. split.
    + intros Hagree. destruct Hx as [[_ ?]|Hx]; [done |]. by apply Hxy, Hagree.
    + exists k. by rewrite !emits_emits.
Qed.

(** Every call takes one of the ways of [context_failure], of a failed
    resolution, of a failed listener creation, or reaches the binding loop. *)
Lemma context_cases creds :
  context_failure creds \/
  exists c ctx evs, creds = Some c /\ context_created c ctx evs.
Proof.
  destruct creds as [c|]; [| left; constructor].
  destruct (decide (type c = GRPC_CREDENTIALS_TYPE_SSL)) as [Hssl|Hssl].
  - destruct (grpc_ssl_server_security_context_create E
                (grpc_ssl_server_credentials_get_config E (self c)))
      as [status ctx] eqn:Hcreate.
    destruct (decide (status = GRPC_SECURITY_OK)) as [->|Hst].
    + right. exists c, ctx. eexists. split; [done |]. by eapply created_ssl.
    + left. by eapply failure_construction.
  - destruct (decide (type c = GRPC_CREDENTIALS_TYPE_FAKE_TRANSPORT_SECURITY))
      as [Hfake|Hfake].
    + right. exists c. eexists. eexists. split; [done |]. by eapply created_fake.
    + left. by apply failure_unrecognized.
Qed.

(** *** The calls of each way out: resources and registration *)

Lemma context_created_live c ctx evs held :
  context_created c ctx evs ->
  live held evs = Some (held ++ holding Security_context ctx).
Proof.
  intros [config ctx' _ _ _ | ctx' _ _ _]; simpl; unfold holding;
    destruct (object Security_context ctx'); simpl; by rewrite ?app_nil_r.
Qed.

Lemma context_created_registers c ctx evs :
  context_created c ctx evs -> registers evs = false.
Proof. by intros [config ctx' _ _ _ | ctx' _ _ _]. Qed.

Lemma binding_reached_live addr creds ctx resolved set tcp pre :
  binding_reached addr creds ctx resolved set tcp pre ->
  live [] pre = Some (holding Security_context ctx
                      ++ [Resolved_addresses resolved; Tcp_server tcp]).
Proof.
  intros [c ctx' evs r set' tcp' -> Hc Hres Hr -> Htcp].
  rewrite live_app, (context_created_live _ _ _ _ Hc). simpl.
  by rewrite !object_nonnull, <- app_assoc by done.
Qed.

Lemma binding_reached_registers addr creds ctx resolved set tcp pre :
  binding_reached addr creds ctx resolved set tcp pre -> registers pre = false.
Proof.
  intros [c ctx' evs r set' tcp' -> Hc Hres Hr -> Htcp].
  by rewrite registers_app, (context_created_registers _ _ _ Hc).
Qed.

Lemma binding_reached_nonnull addr creds ctx resolved set tcp pre :
  binding_reached addr creds ctx resolved set tcp pre ->
  resolved <> NULL /\ tcp <> NULL.
Proof. by intros [c ctx' evs r set' tcp' -> Hc Hres Hr -> Htcp]. Qed.

(** The error path after the loop gives everything back. *)
Lemma binding_failure_clean addr creds ctx resolved set tcp pre :
  binding_reached addr creds ctx resolved set tcp pre ->
  live [] (pre ++ binding_failure_calls E ctx resolved tcp set) = Some [] /\
  registers (pre ++ binding_failure_calls E ctx resolved tcp set) = false.
Proof.
  intros Hreach. destruct (binding_reached_nonnull _ _ _ _ _ _ _ Hreach) as [Hr Htcp].
  split.
  - rewrite (live_app_Some _ _ _ _ (binding_reached_live _ _ _ _ _ _ _ Hreach)).
    unfold binding_failure_calls.
    rewrite (live_app_Some _ _ _ _ (live_bind_events _ _ _ _ _)).
    cbn [app]. unfold log_none. rewrite live_log.
    rewrite (live_app_Some _ _ _ _ (live_unref_if _ _)).
    by rewrite live_destroy_resolved, live_destroy_tcp.
  - unfold binding_failure_calls.
    by rewrite !registers_app, (binding_reached_registers _ _ _ _ _ _ _ Hreach),
         registers_bind_events, registers_unref_if.
Qed.

(** The successful end keeps the context, the tcp server and the
    [secured_port], which the registered listener now owns; the resolved
    addresses are given back. *)
Lemma binding_success_live addr creds server ctx resolved set tcp pre :
  binding_reached addr creds ctx resolved set tcp pre ->
  live [] (pre ++ binding_success_calls E server resolved tcp set) =
  Some (holding Security_context ctx ++ [Tcp_server tcp]
        ++ holding Secured_port_storage (gpr_malloc E)).
Proof.
  intros Hreach. destruct (binding_reached_nonnull _ _ _ _ _ _ _ Hreach) as [Hr Htcp].
  rewrite (live_app_Some _ _ _ _ (binding_reached_live _ _ _ _ _ _ _ Hreach)).
  unfold binding_success_calls.
  rewrite (live_app_Some _ _ _ _ (live_bind_events _ _ _ _ _)).
  assert (forall evs,
    live (holding Security_context ctx ++ [Resolved_addresses resolved; Tcp_server tcp])
      (Ev_resolved_addresses_destroy resolved :: evs) =
    live (holding Security_context ctx ++ [Tcp_server tcp]) evs) as Hgive.
  { intros evs. simpl. rewrite object_nonnull by done.
    unfold holding. destruct (object Security_context ctx) as [r|] eqn:Hobj; simpl.
    - unfold object in Hobj. destruct (ctx =? NULL); [done |].
      injection Hobj as <-. rewrite decide_False by done. by rewrite decide_True.
    - by rewrite decide_True. }
  destruct (negb _); simpl app; unfold log_only; rewrite ?live_log, Hgive; simpl;
    unfold holding; destruct (object Secured_port_storage (gpr_malloc E));
    simpl; by rewrite <- ?app_assoc, ?app_nil_r.
Qed.

Lemma binding_success_registers server resolved set tcp pre :
  registers (pre ++ binding_success_calls E server resolved tcp set) = true.
Proof.
  unfold binding_success_calls. rewrite !registers_app. simpl.
  by rewrite !orb_true_r.
Qed.

(** *** Failures *)

Lemma run_context_failure server addr creds w :
  context_failure creds ->
  exists evs,
    add_port server addr creds w = Returned 0 (emits evs w) /\
    registers evs = false /\ live [] evs = Some [] /\
    Forall (fun e => past_context e = false) evs.
Proof.
  intros [|c Hssl Hfake|c status ctx Hssl Hcreate Hst].
  - exists []. rewrite run_null, emits_nil. by repeat split.
  - exists [log_unable c]. rewrite run_unrecognized by done.
    repeat split; by repeat constructor.
  - eexists. rewrite (run_construction_failure _ _ _ _ _ _ Hssl Hcreate Hst).
    split; [reflexivity |]. repeat split.
    + rewrite registers_app, registers_unref_if. reflexivity.
    + cbn [app live acquired released].
      pose proof (live_unref_if ctx []) as Hlive. rewrite app_nil_r in Hlive.
      unfold holding in Hlive. unfold log_unable. cbn [live acquired released].
      by destruct (object Security_context ctx).
    + unfold unref_if. destruct (ctx =? NULL); by repeat constructor.
Qed.

Lemma run_failure server addr creds w :
  failure_stage addr creds ->
  exists evs,
    add_port server addr creds w = Returned 0 (emits evs w) /\
    registers evs = false /\ live [] evs = Some [].
Proof.
  intros [Hctx | c ctx evs -> Hc Hr | c ctx evs -> Hc Hr Htcp
          | ctx resolved set tcp pre Hreach Hnone].
  - destruct (run_context_failure server addr creds w Hctx) as (evs & ? & ? & ? & _).
    by exists evs.
  - eexists. rewrite (run_resolution_failure _ _ _ _ _ _ Hc Hr).
    split; [reflexivity |]. split.
    + by rewrite !registers_app, (context_created_registers _ _ _ Hc),
           registers_unref_if.
    + rewrite (live_app_Some _ _ _ _ (context_created_live _ _ _ _ Hc)).
      cbn [app live acquired released]. rewrite object_null.
      pose proof (live_unref_if ctx []) as Hlive. by rewrite app_nil_r in Hlive.
  - eexists. rewrite (run_listener_failure _ _ _ _ _ _ Hc Hr Htcp).
    split; [reflexivity |]. split.
    + by rewrite !registers_app, (context_created_registers _ _ _ Hc),
           registers_unref_if.
    + rewrite (live_app_Some _ _ _ _ (context_created_live _ _ _ _ Hc)).
      cbn [app live acquired released]. rewrite object_null, object_nonnull by done.
      rewrite (live_app_Some _ _ _ _ (live_unref_if _ _)).
      by rewrite live_destroy_resolved.
  - destruct (run_binding_cases server addr creds _ _ _ _ _ w Hreach)
      as [[Hno _] | [(_ & _ & Hrun) | (_ & Hcount & _)]].
    + exfalso. apply Hno. intros x y Hx. rewrite Hnone in Hx. by inversion Hx.
    + eexists. split; [exact Hrun |].
      destruct (binding_failure_clean _ _ _ _ _ _ _ Hreach) as [Hlive Hreg].
      by split.
    + exfalso. apply Hcount. unfold counted. by rewrite Hnone.
Qed.

(** *** Every run *)

Lemma reach_cases addr creds :
  failure_stage addr creds \/
  exists ctx resolved set tcp pre, binding_reached addr creds ctx resolved set tcp pre.
Proof.
  destruct (context_cases creds) as [Hfail | (c & ctx & evs & -> & Hc)].
  - left. by apply fails_context.
  - destruct (grpc_blocking_resolve_address E addr "https") as [resolved set] eqn:Hres.
    destruct (decide (resolved = NULL)) as [->|Hr].
    { left. eapply fails_resolution; [done.. |]. by rewrite Hres. }
    destruct (decide (grpc_tcp_server_create E = NULL)) as [Htcp|Htcp].
    { left. eapply fails_listener_creation; [done.. | by rewrite Hres | done]. }
    right. exists ctx, resolved, set, (grpc_tcp_server_create E). eexists.
    by eapply reached.
Qed.

(** A run ends in one of three ways: the error path, with everything given
    back and nothing registered; the failed assertion; the registration. *)
Lemma run_cases server addr creds w :
  let o := add_port server addr creds w in
  (exists evs,
     o = Returned 0 (emits evs w) /\ registers evs = false /\ live [] evs = Some [])
  \/ (exists ctx resolved set tcp pre k,
        binding_reached addr creds ctx resolved set tcp pre /\
        ~ agree (bind_results E tcp (addrs set) 0) /\
        o = Aborted (emits (pre ++ take k (bind_events E tcp (addrs set) 0)
                            ++ [assertion_failed "port_num == port_temp"]) w))
  \/ (exists ctx resolved set tcp pre p,
        binding_reached addr creds ctx resolved set tcp pre /\
        agree (bind_results E tcp (addrs set) 0) /\
        counted (bind_results E tcp (addrs set) 0) <> 0 /\
        first_success (bind_results E tcp (addrs set) 0) = Some p /\
        o = Returned p
              (store (gpr_malloc E) {| tcp := tcp; ctx := ctx; server := server |}
                 (emits (pre ++ binding_success_calls E server resolved tcp set) w))).
Proof.
  intros o. subst o.
  destruct (reach_cases addr creds) as [Hfail | (ctx & resolved & set & tcp & pre & Hreach)].
  - left. by apply run_failure.
  - destruct (run_binding_cases server addr creds _ _ _ _ _ w Hreach)
      as [[Hno [k Hrun]] | [(Hagree & Hcount & Hrun) | (Hagree & Hcount & p & Hp & Hrun)]].
    + right; left. by exists ctx, resolved, set, tcp, pre, k.
    + left. eexists. split; [exact Hrun |].
      destruct (binding_failure_clean _ _ _ _ _ _ _ Hreach) as [Hlive Hreg]. by split.
    + right; right. by exists ctx, resolved, set, tcp, pre, p.
Qed.

Lemma first_success_nonneg rs p : first_success rs = Some p -> 0 <= p.
Proof.
  unfold first_success. intros H. apply (successes_nonneg p rs).
  destruct (successes rs) as [|q qs]; [done |]. injection H as ->. by left.
Qed.

Lemma counted_small rs :
  Z.of_nat (length (successes rs)) <= UINT_MAX ->
  counted rs = Z.of_nat (length (successes rs)).
Proof.
  intros H. unfold counted.
  pose proof (unsigned_incr_iter (Z.of_nat (length (successes rs))) H) as Hiter.
  rewrite Nat2Z.id in Hiter. apply Hiter. lia.
Qed.

Lemma agree_first rs p :
  agree rs -> first_success rs = Some p -> Forall (fun r => r = p) (successes rs).
Proof.
  unfold agree, first_success. intros Hagree Hp. apply Forall_forall. intros x Hx.
  apply Hagree; [done |]. destruct (successes rs) as [|q qs]; [done |].
  injection Hp as ->. by left.
Qed.

Lemma aborted_registers addr creds ctx resolved set tcp pre k :
  binding_reached addr creds ctx resolved set tcp pre ->
  registers (pre ++ take k (bind_events E tcp (addrs set) 0)
             ++ [assertion_failed "port_num == port_temp"]) = false.
Proof.
  intros Hreach.
  rewrite !registers_app, (binding_reached_registers _ _ _ _ _ _ _ Hreach).
  by rewrite (registers_take _ _ (registers_bind_events _ _ _ _)).
Qed.

(** ** The claims about [grpc_server_add_secure_http2_port] *)

(** C1. Whenever the call fails at some stage (null or unrecognised
    credential, failed context construction, failed resolution, failed
    listener creation, no successful bind), it returns 0 after giving back
    every resource it was handed (no call releases twice, nothing stays
    held, no [secured_port] stays in memory) and registers no listener; and
    a listener is registered only when every stage succeeded, and then the
    registered [secured_port] holds the tcp server and the context of this
    call. *)
Theorem failure_releases_everything server addr creds w :
  let o := add_port server addr creds w in
  let calls := new_events w (final o) in
  (failure_stage addr creds ->
     returned o = Some 0 /\ live [] calls = Some [] /\
     registers calls = false /\ heap (final o) = heap w) /\
  (registers calls = true ->
     exists ctx resolved set tcp pre,
       binding_reached addr creds ctx resolved set tcp pre /\
       agree (bind_results E tcp (addrs set) 0) /\
       successes (bind_results E tcp (addrs set) 0) <> [] /\
       returned o = first_success (bind_results E tcp (addrs set) 0) /\
       heap (final o) !! gpr_malloc E
         = Some {| tcp := tcp; ctx := ctx; server := server |}).
Proof.
  intros o calls. subst calls o. split.
  - intros Hfail. destruct (run_failure server addr creds w Hfail) as (evs & -> & Hreg & Hlive).
    cbn [final returned]. by rewrite new_events_emits.
  - destruct (run_cases server addr creds w)
      as [(evs & -> & Hreg & _)
         | [(ctx & resolved & set & tcp & pre & k & Hreach & _ & ->)
           | (ctx & resolved & set & tcp & pre & q & Hreach & Hagree & _ & Hq & ->)]];
      cbn [final returned].
    + rewrite new_events_emits. congruence.
    + rewrite new_events_emits, (aborted_registers _ _ _ _ _ _ _ _ Hreach). done.
    + intros _. exists ctx, resolved, set, tcp, pre. repeat split; [done.. | | done |].
      * unfold first_success in Hq. by destruct (successes _).
      * simpl. apply lookup_insert_eq.
Qed.

(** C2. Once the binding loop is reached: if the successful binds agree on
    the port, the assertion never fails and the call returns; if two
    successful binds differ, the call aborts on the assertion and no listener
    is registered; and whenever a listener is registered, the port returned
    is that of the first successful bind and every successful bind yielded
    exactly that port. *)
Theorem port_consistency server addr creds ctx resolved set tcp pre w :
  binding_reached addr creds ctx resolved set tcp pre ->
  let rs := bind_results E tcp (addrs set) 0 in
  let o := add_port server addr creds w in
  let calls := new_events w (final o) in
  (agree rs -> exists v, returned o = Some v) /\
  (~ agree rs -> returned o = None /\ registers calls = false) /\
  (registers calls = true ->
     exists p, first_success rs = Some p /\ returned o = Some p /\
               Forall (fun r => r = p) (successes rs)).
Proof.
  intros Hreach rs o calls. subst calls o rs.
  destruct (run_binding_cases server addr creds _ _ _ _ _ w Hreach)
    as [[Hno [k ->]] | [(Hagree & Hcount & ->) | (Hagree & Hcount & p & Hp & ->)]];
    cbn [final returned].
  - rewrite new_events_emits, (aborted_registers _ _ _ _ _ _ _ _ Hreach).
    by repeat split.
  - destruct (binding_failure_clean _ _ _ _ _ _ _ Hreach) as [_ Hreg].
    rewrite new_events_emits, Hreg. repeat split; [by eexists | done..].
  - repeat split; [by eexists | done.. |].
    intros _. exists p. repeat split; [done.. |]. by apply agree_first.
Qed.

(** C3. Once the binding loop is reached, when only M of the N resolved
    addresses bind, 0 < M < N (M within the range of the [unsigned] counter,
    the successful binds agreeing on the port as C2 requires), the call
    succeeds: it logs "Only M addresses added out of total N resolved" (at
    severity [GPR_ERROR]), gives the address set back, registers the
    listener and returns the port of the first successful bind. *)
Theorem partial_binding_succeeds server addr creds ctx resolved set tcp pre w :
  binding_reached addr creds ctx resolved set tcp pre ->
  let rs := bind_results E tcp (addrs set) 0 in
  let M := Z.of_nat (length (successes rs)) in
  0 < M < naddrs set -> M <= UINT_MAX -> agree rs ->
  exists p,
    first_success rs = Some p /\ 0 <= p /\
    add_port server addr creds w =
    Returned p
      (store (gpr_malloc E) {| tcp := tcp; ctx := ctx; server := server |}
         (emits (pre ++ bind_events E tcp (addrs set) 0
                 ++ [log_only M set;
                     Ev_resolved_addresses_destroy resolved;
                     Ev_gpr_malloc (gpr_malloc E);
                     Ev_server_add_listener server (gpr_malloc E) Fn_start Fn_destroy])
            w)).
Proof.
  intros Hreach rs M HM Hmax Hagree. subst M rs.
  pose proof (counted_small _ Hmax) as Hcount.
  destruct (run_binding_cases server addr creds _ _ _ _ _ w Hreach)
    as [[Hno _] | [(_ & Hzero & _) | (_ & _ & p & Hp & ->)]].
  - done.
  - lia.
  - exists p. repeat split; [done | by eapply first_success_nonneg |].
    unfold binding_success_calls. cbv zeta. rewrite Hcount.
    destruct (Z.eqb_spec (Z.of_nat (length (successes (bind_results E tcp (addrs set) 0))))
                (naddrs set)) as [?|_]; [lia |].
    reflexivity.
Qed.

(** C4. Once the binding loop is reached, when no address binds, the call
    logs "No address added out of total N resolved", releases the context,
    the address set and the tcp server, and returns 0: nothing it was handed
    stays held and no listener is registered. *)
Theorem no_binding_fails server addr creds ctx resolved set tcp pre w :
  binding_reached addr creds ctx resolved set tcp pre ->
  successes (bind_results E tcp (addrs set) 0) = [] ->
  let calls :=
    pre ++ bind_events E tcp (addrs set) 0 ++ [log_none set] ++ unref_if ctx
        ++ [Ev_resolved_addresses_destroy resolved; Ev_tcp_server_destroy tcp] in
  add_port server addr creds w = Returned 0 (emits calls w) /\
  live [] pre = Some (holding Security_context ctx
                      ++ [Resolved_addresses resolved; Tcp_server tcp]) /\
  live [] calls = Some [] /\ registers calls = false.
Proof.
  intros Hreach Hnone calls. subst calls.
  destruct (binding_failure_clean _ _ _ _ _ _ _ Hreach) as [Hlive Hreg].
  split; [| by rewrite (binding_reached_live _ _ _ _ _ _ _ Hreach)].
  destruct (run_binding_cases server addr creds _ _ _ _ _ w Hreach)
    as [[Hno _] | [(_ & _ & Hrun) | (_ & Hcount & _)]].
  - exfalso. apply Hno. intros x y Hx. rewrite Hnone in Hx. by inversion Hx.
  - exact Hrun.
  - exfalso. apply Hcount. unfold counted. by rewrite Hnone.
Qed.

(** What a run that returns has returned, by whether it registered. *)
Lemma returned_cases server addr creds w v :
  let o := add_port server addr creds w in
  let calls := new_events w (final o) in
  returned o = Some v ->
  (registers calls = false /\ v = 0) \/
  (registers calls = true /\
   exists ctx resolved set tcp pre,
     binding_reached addr creds ctx resolved set tcp pre /\
     first_success (bind_results E tcp (addrs set) 0) = Some v).
Proof.
  intros o calls. subst calls o.
  destruct (run_cases server addr creds w)
    as [(evs & -> & Hreg & _)
       | [(ctx & resolved & set & tcp & pre & k & Hreach & _ & ->)
         | (ctx & resolved & set & tcp & pre & q & Hreach & Hagree & _ & Hq & ->)]];
    cbn [final returned]; intros Hv; [| done |].
  - left. rewrite new_events_emits. split; [done | congruence].
  - right. injection Hv as <-. rewrite new_events_store. split.
    + apply binding_success_registers.
    + by exists ctx, resolved, set, tcp, pre.
Qed.

(** C5, as amended. A run that registers the listener returns the port of
    the first successful bind, which is at least 0; a run that returns
    without registering returns 0; so the value of a failure differs from
    the value of a success exactly when the port of that success is not
    0. *)
Theorem sentinel_is_zero server addr creds w server' addr' creds' w' v v' :
  let ok := add_port server addr creds w in
  let ko := add_port server' addr' creds' w' in
  returned ok = Some v -> registers (new_events w (final ok)) = true ->
  returned ko = Some v' -> registers (new_events w' (final ko)) = false ->
  (exists ctx resolved set tcp pre,
     binding_reached addr creds ctx resolved set tcp pre /\
     first_success (bind_results E tcp (addrs set) 0) = Some v) /\
  0 <= v /\ v' = 0 /\ (v <> v' <-> v <> 0).
Proof.
  intros ok ko Hv Hreg Hv' Hreg'. subst ok ko.
  destruct (returned_cases _ _ _ _ _ Hv) as [[Hno _] | [_ Hfirst]]; [congruence |].
  destruct (returned_cases _ _ _ _ _ Hv') as [[_ ->] | [Hyes _]]; [| congruence].
  split; [done |].
  destruct Hfirst as (ctx & resolved & set & tcp & pre & _ & Hfirst).
  apply first_success_nonneg in Hfirst. by repeat split.
Qed.

(** C6. When the credential is null, or of no recognised variant, or the
    construction routine of its variant fails, the call returns 0; it makes
    no call of a later stage, registers no listener, stores no
    [secured_port] (so no context pointer outlives the call), and whatever
    context the construction routine handed out has been released. *)
Theorem context_failure_fails server addr creds w :
  context_failure creds ->
  let o := add_port server addr creds w in
  let calls := new_events w (final o) in
  returned o = Some 0 /\ heap (final o) = heap w /\
  registers calls = false /\ live [] calls = Some [] /\
  Forall (fun e => past_context e = false) calls.
Proof.
  intros Hfail o calls. subst calls o.
  destruct (run_context_failure server addr creds w Hfail)
    as (evs & -> & Hreg & Hlive & Hstage).
  cbn [final returned]. by rewrite new_events_emits.
Qed.

(** C9. Whatever the inputs, a value returned is never negative: it is 0
    when the run did not register the listener, and the port of the first
    successful bind when it did.  And a run whose first successful bind
    yields port 0 registers the listener and returns 0, the very value
    returned for a null credential. *)
Theorem returns_zero_or_first_port server addr creds w :
  let o := add_port server addr creds w in
  let calls := new_events w (final o) in
  (forall v, returned o = Some v ->
     0 <= v /\
     ((registers calls = false /\ v = 0) \/
      (registers calls = true /\
       exists ctx resolved set tcp pre,
         binding_reached addr creds ctx resolved set tcp pre /\
         first_success (bind_results E tcp (addrs set) 0) = Some v))) /\
  (forall ctx resolved set tcp pre,
     binding_reached addr creds ctx resolved set tcp pre ->
     agree (bind_results E tcp (addrs set) 0) ->
     first_success (bind_results E tcp (addrs set) 0) = Some 0 ->
     Z.of_nat (length (successes (bind_results E tcp (addrs set) 0))) <= UINT_MAX ->
     registers calls = true /\ returned o = Some 0 /\
     returned o = returned (add_port server addr None w)).
Proof.
  intros o calls. subst calls o. split.
  - intros v Hv. destruct (returned_cases _ _ _ _ _ Hv) as [[Hreg ->] | [Hreg Hfirst]].
    + split; [done |]. by left.
    + split; [| by right].
      destruct Hfirst as (ctx & resolved & set & tcp & pre & _ & Hfirst).
      by eapply first_success_nonneg.
  - intros ctx resolved set tcp pre Hreach Hagree Hfirst Hmax.
    pose proof (counted_small _ Hmax) as Hcount.
    destruct (run_binding_cases server addr creds _ _ _ _ _ w Hreach)
      as [[Hno _] | [(_ & Hzero & _) | (_ & _ & p & Hp & ->)]].
    + done.
    + rewrite Hzero in Hcount. unfold first_success in Hfirst.
      destruct (successes _); [done | simpl in Hcount; lia].
    + cbn [final returned]. rewrite new_events_store, binding_success_registers.
      rewrite Hfirst in Hp. injection Hp as <-. by rewrite run_null.
Qed.

End AddPortFacts.

(** ** The claims about the callbacks *)

Section CallbackFacts.

Variable E : collaborators.

Lemma mdctx_count_emit e w :
  mdctx_count (emit e w) = (mdctx_count w + if is_mdctx_create e then 1 else 0)%nat.
Proof.
  unfold mdctx_count, emit; simpl. rewrite filter_app, length_app. f_equal.
  rewrite filter_cons, filter_nil. by destruct (is_mdctx_create e).
Qed.

Lemma setup_transport_run server transport mdctx w :
  invoke_setup E Fn_setup_transport server transport mdctx w =
  Returned
    (grpc_server_setup_transport E server transport
       [grpc_http_server_filter; grpc_http_filter] 2 mdctx)
    (emits [Ev_server_setup_transport server transport
              [grpc_http_server_filter; grpc_http_filter] 2 mdctx] w).
Proof. reflexivity. Qed.

(** C7. When a handshake completes: a chttp2 transport is constructed if and
    only if the status is OK; it is constructed over the secured endpoint,
    with the channel arguments of the owning server and with
    [setup_transport], which attaches the server-side filters in their fixed
    order, as the last of three calls, after the channel arguments were
    fetched and a metadata context created (in the one order or the other);
    with any other status the one call made is the log line carrying the
    status; and in neither case is a handshake started again. *)
Theorem handshake_completion order server status secure_endpoint w :
  let o := on_secure_transport_setup_done E order server status secure_endpoint w in
  let calls := new_events w (final o) in
  returned o = Some tt /\ heap (final o) = heap w /\
  (creates_transport calls = true <-> status = GRPC_SECURITY_OK) /\
  (status = GRPC_SECURITY_OK ->
     exists mdctx,
       Permutation calls
         [Ev_server_get_channel_args server (grpc_server_get_channel_args E server);
          Ev_mdctx_create mdctx;
          Ev_create_chttp2_transport Fn_setup_transport server
            (grpc_server_get_channel_args E server) secure_endpoint NULL 0 mdctx 0] /\
       last calls =
         Some (Ev_create_chttp2_transport Fn_setup_transport server
                 (grpc_server_get_channel_args E server) secure_endpoint NULL 0 mdctx 0) /\
       forall transport w',
         new_events w'
           (final (invoke_setup E Fn_setup_transport server transport mdctx w')) =
         [Ev_server_setup_transport server transport
            [grpc_http_server_filter; grpc_http_filter] 2 mdctx]) /\
  (status <> GRPC_SECURITY_OK ->
     calls = [Ev_gpr_log GPR_ERROR "Secure transport failed with error %d"
                [Arg_status status]]) /\
  starts_handshake calls = false.
Proof.
  intros o calls. subst calls o. unfold on_secure_transport_setup_done.
  destruct status, order; cbn [is_security_ok final returned];
    rewrite ?emit_emits, ?emits_emits, new_events_emits; cbn [app];
    (repeat split; try done);
    intros _; eexists;
    (split; [first [reflexivity | apply perm_swap] |]);
    (split; [reflexivity |]);
    intros transport w'; rewrite setup_transport_run; cbn [final];
    by rewrite new_events_emits.
Qed.

(** C8. On a [secured_port] in memory, [destroy] destroys the tcp server,
    releases one reference on the context and frees the [secured_port], in
    that order and whatever else the world holds; it does the same after
    [start], and before any [start]. *)
Theorem destroy_releases server_arg spp sp w :
  heap w !! spp = Some sp ->
  let calls := [Ev_tcp_server_destroy (tcp sp);
                Ev_security_context_unref (ctx sp);
                Ev_gpr_free spp] in
  destroy server_arg spp w = Returned tt (unmap spp (emits calls w)) /\
  (forall pollsets pollset_count,
     exists w1,
       start server_arg spp pollsets pollset_count w = Returned tt w1 /\
       new_events w w1
         = [Ev_tcp_server_start (tcp sp) pollsets pollset_count Fn_on_accept spp] /\
       destroy server_arg spp w1 = Returned tt (unmap spp (emits calls w1))).
Proof.
  intros Hsp calls. subst calls. split.
  - unfold destroy. rewrite Hsp. by rewrite !emit_emits, !emits_emits.
  - intros pollsets pollset_count. unfold start. rewrite Hsp. eexists.
    split; [reflexivity |]. split.
    + by rewrite emit_emits, new_events_emits.
    + unfold destroy. cbn [heap emit]. rewrite Hsp.
      by rewrite !(emit_emits (Ev_tcp_server_destroy _)),
           !(emit_emits (Ev_security_context_unref _)),
           !(emit_emits (Ev_gpr_free _)), !emits_emits.
Qed.

(** C10. On every successful handshake the transport is constructed, as the
    last call of the completion, with a metadata context created by a call of
    [grpc_mdctx_create] made for this very connection, and with
    [setup_transport] as its setup function; that function hands the server
    exactly two extra filters, the HTTP server filter and then the HTTP
    filter, whatever the server, the endpoint, the transport and the world. *)
Theorem transport_filters order server secure_endpoint w :
  let o := on_secure_transport_setup_done E order server GRPC_SECURITY_OK secure_endpoint w in
  let mdctx := grpc_mdctx_create E (mdctx_count w) in
  Permutation (new_events w (final o))
    [Ev_server_get_channel_args server (grpc_server_get_channel_args E server);
     Ev_mdctx_create mdctx;
     Ev_create_chttp2_transport Fn_setup_transport server
       (grpc_server_get_channel_args E server) secure_endpoint NULL 0 mdctx 0] /\
  last (new_events w (final o)) =
    Some (Ev_create_chttp2_transport Fn_setup_transport server
            (grpc_server_get_channel_args E server) secure_endpoint NULL 0 mdctx 0) /\
  mdctx_count (final o) = S (mdctx_count w) /\
  (forall transport w',
     invoke_setup E Fn_setup_transport server transport mdctx w' =
     Returned
       (grpc_server_setup_transport E server transport
          [grpc_http_server_filter; grpc_http_filter] 2 mdctx)
       (emits [Ev_server_setup_transport server transport
                 [grpc_http_server_filter; grpc_http_filter] 2 mdctx] w')) /\
  extra_filters = [grpc_http_server_filter; grpc_http_filter] /\
  GPR_ARRAY_SIZE extra_filters = 2.
Proof.
  intros o mdctx. subst o mdctx. unfold on_secure_transport_setup_done.
  cbn [is_security_ok final].
  destruct order; repeat split;
    rewrite ?mdctx_count_emit; cbn [is_mdctx_create]; try lia;
    rewrite ?emit_emits, ?emits_emits, ?new_events_emits; cbn [app];
    first [reflexivity | apply perm_swap].
Qed.

End CallbackFacts.

(** ** The concrete setting at work *)

Example add_two_ports :
  add_fake_port 300 400 [8443; 8443] =
  Returned 8443
    (store 500 {| tcp := 400; ctx := 201; server := 1 |}
       (emits (fake_port_prelude 300 400
               ++ [Ev_tcp_server_add_port 400 an_address 8443;
                   Ev_tcp_server_add_port 400 an_address 8443;
                   Ev_resolved_addresses_destroy 300;
                   Ev_gpr_malloc 500;
                   Ev_server_add_listener 1 500 Fn_start Fn_destroy]) empty_world)).
Proof. reflexivity. Qed.

Example add_mismatched_ports :
  add_fake_port 300 400 [8443; -1; 8444; 8443] =
  Aborted (emits (fake_port_prelude 300 400
                  ++ [Ev_tcp_server_add_port 400 an_address 8443;
                      Ev_tcp_server_add_port 400 an_address (-1);
                      Ev_tcp_server_add_port 400 an_address 8444;
                      assertion_failed "port_num == port_temp"]) empty_world).
Proof. reflexivity. Qed.

Example add_unresolved :
  add_fake_port NULL 400 [8443] =
  Returned 0 (emits [Ev_fake_server_security_context_create 201;
                     Ev_blocking_resolve_address "localhost:0" "https" NULL;
                     Ev_security_context_unref 201] empty_world).
Proof. reflexivity. Qed.

Example add_ssl_failure :
  grpc_server_add_secure_http2_port SSL_TAG FAKE_TAG
    (sample GRPC_SECURITY_ERROR 300 400 [8443]) 1 "localhost:0"
    (Some ssl_credentials) empty_world =
  Returned 0
    (emits [Ev_ssl_server_credentials_get_config 101 1101;
            Ev_ssl_server_security_context_create 1101 GRPC_SECURITY_ERROR NULL;
            log_unable ssl_credentials] empty_world).
Proof. reflexivity. Qed.

Example add_ssl_port :
  returned (grpc_server_add_secure_http2_port SSL_TAG FAKE_TAG
              (sample GRPC_SECURITY_OK 300 400 [-1; 443]) 1 "[::]:443"
              (Some ssl_credentials) empty_world) = Some 443.
Proof. reflexivity. Qed.

(** The accounting of resources sees a leak and a double release. *)
Example live_leak : live [] [Ev_tcp_server_create 400] = Some [Tcp_server 400].
Proof. reflexivity. Qed.

Example live_double_release :
  live [] [Ev_tcp_server_create 400; Ev_tcp_server_destroy 400; Ev_tcp_server_destroy 400]
  = None.
Proof. reflexivity. Qed.

(** A whole life of a port: added, started, a connection accepted and its
    handshake completed, destroyed.  Nothing stays held. *)
Example port_life :
  let E := sample GRPC_SECURITY_OK 300 400 [8443] in
  let w1 := final (add_fake_port 300 400 [8443]) in
  let w2 := final (start 1 500 900 1 w1) in
  let w3 := final (on_accept 500 901 w2) in
  let w4 :=
    final (on_secure_transport_setup_done E Mdctx_first 1 GRPC_SECURITY_OK 902 w3) in
  let w5 := final (destroy 1 500 w4) in
  new_events w1 w5 =
    [Ev_tcp_server_start 400 900 1 Fn_on_accept 500;
     Ev_setup_secure_transport 201 901 Fn_on_secure_transport_setup_done 1;
     Ev_mdctx_create 600;
     Ev_server_get_channel_args 1 8;
     Ev_create_chttp2_transport Fn_setup_transport 1 8 902 NULL 0 600 0;
     Ev_tcp_server_destroy 400;
     Ev_security_context_unref 201;
     Ev_gpr_free 500] /\
  live [] (trace w5) = Some [] /\
  heap w5 !! 500 = None.
Proof. repeat split; reflexivity. Qed.

(** ** The claims at concrete inputs *)

Lemma fake_port_reached ports :
  binding_reached SSL_TAG FAKE_TAG (sample GRPC_SECURITY_OK 300 400 ports) "localhost:0"
    (Some fake_credentials) 201 300 {| addrs := map (fun _ => an_address) ports |} 400
    (fake_port_prelude 300 400).
Proof.
  apply (reached SSL_TAG FAKE_TAG _ "localhost:0" _ fake_credentials 201
           [Ev_fake_server_security_context_create 201]); try done.
  by apply created_fake.
Qed.

Lemma agree_one E tcp rest p :
  successes (bind_results E tcp rest 0) = [p] -> agree (bind_results E tcp rest 0).
Proof.
  intros Hs x y Hx Hy. rewrite Hs in Hx, Hy.
  apply list_elem_of_singleton in Hx, Hy. congruence.
Qed.

(** No address binds: the call fails and holds nothing.  One address binds:
    the listener is registered, with the tcp server and the context. *)
Lemma failure_releases_everything_witness :
  (failure_stage SSL_TAG FAKE_TAG (sample GRPC_SECURITY_OK 300 400 [-1; -1]) "localhost:0"
     (Some fake_credentials) /\
   returned (add_fake_port 300 400 [-1; -1]) = Some 0 /\
   live [] (new_events empty_world (final (add_fake_port 300 400 [-1; -1]))) = Some [] /\
   registers (new_events empty_world (final (add_fake_port 300 400 [-1; -1]))) = false /\
   heap (final (add_fake_port 300 400 [-1; -1])) = heap empty_world) /\
  (registers (new_events empty_world (final (add_fake_port 300 400 [8443]))) = true /\
   exists ctx resolved set tcp pre,
     binding_reached SSL_TAG FAKE_TAG (sample GRPC_SECURITY_OK 300 400 [8443]) "localhost:0"
       (Some fake_credentials) ctx resolved set tcp pre /\
     agree (bind_results (sample GRPC_SECURITY_OK 300 400 [8443]) tcp (addrs set) 0) /\
     successes (bind_results (sample GRPC_SECURITY_OK 300 400 [8443]) tcp (addrs set) 0) <> [] /\
     returned (add_fake_port 300 400 [8443])
       = first_success (bind_results (sample GRPC_SECURITY_OK 300 400 [8443]) tcp (addrs set) 0) /\
     heap (final (add_fake_port 300 400 [8443])) !! 500
       = Some {| tcp := tcp; ctx := ctx; server := 1 |}).
Proof.
  assert (failure_stage SSL_TAG FAKE_TAG (sample GRPC_SECURITY_OK 300 400 [-1; -1])
            "localhost:0" (Some fake_credentials)) as Hfail.
  { eapply fails_binding; [apply fake_port_reached | reflexivity]. }
  assert (registers (new_events empty_world (final (add_fake_port 300 400 [8443]))) = true)
    as Hreg by reflexivity.
  split; (split; [assumption |]).
  - exact (proj1 (failure_releases_everything SSL_TAG FAKE_TAG _ 1 "localhost:0"
                    (Some fake_credentials) empty_world) Hfail).
  - exact (proj2 (failure_releases_everything SSL_TAG FAKE_TAG _ 1 "localhost:0"
                    (Some fake_credentials) empty_world) Hreg).
Defined.

(** Two binds on different ports: the call aborts and registers nothing.  Two
    binds on the same port: the call returns. *)
Lemma port_consistency_witness :
  (binding_reached SSL_TAG FAKE_TAG (sample GRPC_SECURITY_OK 300 400 [5; -1; 6]) "localhost:0"
     (Some fake_credentials) 201 300 {| addrs := map (fun _ => an_address) [5; -1; 6] |} 400
     (fake_port_prelude 300 400) /\
   ~ agree [5; -1; 6] /\
   returned (add_fake_port 300 400 [5; -1; 6]) = None /\
   registers (new_events empty_world (final (add_fake_port 300 400 [5; -1; 6]))) = false) /\
  (binding_reached SSL_TAG FAKE_TAG (sample GRPC_SECURITY_OK 300 400 [5; -1; 5]) "localhost:0"
     (Some fake_credentials) 201 300 {| addrs := map (fun _ => an_address) [5; -1; 5] |} 400
     (fake_port_prelude 300 400) /\
   agree [5; -1; 5] /\
   exists v, returned (add_fake_port 300 400 [5; -1; 5]) = Some v).
Proof.
  assert (~ agree [5; -1; 6]) as Hno.
  { intros Hagree. specialize (Hagree 5 6).
    assert (5 = 6) as Heq; [| lia].
    apply Hagree; vm_compute; repeat constructor. }
  assert (agree [5; -1; 5]) as Hyes.
  { intros x y Hx Hy. vm_compute in Hx, Hy.
    apply list_elem_of_In in Hx, Hy. simpl in Hx, Hy. intuition congruence. }
  split; (split; [apply fake_port_reached |]); (split; [assumption |]).
  - exact (proj1 (proj2 (port_consistency SSL_TAG FAKE_TAG _ 1 "localhost:0"
                           (Some fake_credentials) _ _ _ _ _ empty_world
                           (fake_port_reached [5; -1; 6]))) Hno).
  - exact (proj1 (port_consistency SSL_TAG FAKE_TAG _ 1 "localhost:0"
                    (Some fake_credentials) _ _ _ _ _ empty_world
                    (fake_port_reached [5; -1; 5])) Hyes).
Defined.

(** One bind out of two succeeds: the call succeeds on that port. *)
Lemma partial_binding_succeeds_witness :
  binding_reached SSL_TAG FAKE_TAG (sample GRPC_SECURITY_OK 300 400 [-1; 8443]) "localhost:0"
    (Some fake_credentials) 201 300 {| addrs := map (fun _ => an_address) [-1; 8443] |} 400
    (fake_port_prelude 300 400) /\
  exists p,
    first_success [-1; 8443] = Some p /\ 0 <= p /\
    add_fake_port 300 400 [-1; 8443] =
    Returned p
      (store 500 {| tcp := 400; ctx := 201; server := 1 |}
         (emits (fake_port_prelude 300 400
                 ++ [Ev_tcp_server_add_port 400 an_address (-1);
                     Ev_tcp_server_add_port 400 an_address 8443;
                     log_only 1 {| addrs := [an_address; an_address] |};
                     Ev_resolved_addresses_destroy 300;
                     Ev_gpr_malloc 500;
                     Ev_server_add_listener 1 500 Fn_start Fn_destroy]) empty_world)).
Proof.
  split; [apply fake_port_reached |].
  apply (partial_binding_succeeds SSL_TAG FAKE_TAG _ 1 "localhost:0" (Some fake_credentials)
           _ _ _ _ _ empty_world (fake_port_reached [-1; 8443])).
  - vm_compute. split; reflexivity.
  - vm_compute. discriminate.
  - by apply (agree_one _ _ _ 8443).
Defined.

(** No address binds: context, address set and tcp server are released. *)
Lemma no_binding_fails_witness :
  successes [-1; -1] = [] /\
  add_fake_port 300 400 [-1; -1] =
  Returned 0
    (emits (fake_port_prelude 300 400
            ++ [Ev_tcp_server_add_port 400 an_address (-1);
                Ev_tcp_server_add_port 400 an_address (-1);
                log_none {| addrs := [an_address; an_address] |};
                Ev_security_context_unref 201;
                Ev_resolved_addresses_destroy 300;
                Ev_tcp_server_destroy 400]) empty_world).
Proof.
  split; [reflexivity |].
  exact (proj1 (no_binding_fails SSL_TAG FAKE_TAG _ 1 "localhost:0" (Some fake_credentials)
                  _ _ _ _ _ empty_world (fake_port_reached [-1; -1]) eq_refl)).
Defined.

(** C5 as the claim has it fails: a bind that answers port 0 makes the call
    succeed with the value every failure returns. *)
Lemma port_zero_looks_like_failure :
  registers (new_events empty_world (final (add_fake_port 300 400 [0]))) = true /\
  returned (add_fake_port 300 400 [0]) = Some 0 /\
  registers (new_events empty_world (final (add_null_port [0]))) = false /\
  returned (add_null_port [0]) = Some 0.
Proof. repeat split; reflexivity. Qed.

(** A success on port 8443 against the failure on a null credential. *)
Lemma sentinel_is_zero_witness :
  returned (add_fake_port 300 400 [8443]) = Some 8443 /\
  registers (new_events empty_world (final (add_fake_port 300 400 [8443]))) = true /\
  returned (add_null_port [8443]) = Some 0 /\
  registers (new_events empty_world (final (add_null_port [8443]))) = false /\
  (exists ctx resolved set tcp pre,
     binding_reached SSL_TAG FAKE_TAG (sample GRPC_SECURITY_OK 300 400 [8443]) "localhost:0"
       (Some fake_credentials) ctx resolved set tcp pre /\
     first_success (bind_results (sample GRPC_SECURITY_OK 300 400 [8443]) tcp (addrs set) 0)
       = Some 8443) /\
  0 <= 8443 /\ 0 = 0 /\ (8443 <> 0 <-> 8443 <> 0).
Proof.
  assert (returned (add_fake_port 300 400 [8443]) = Some 8443) as Hok by reflexivity.
  assert (registers (new_events empty_world (final (add_fake_port 300 400 [8443]))) = true)
    as Hreg by reflexivity.
  assert (returned (add_null_port [8443]) = Some 0) as Hko by reflexivity.
  assert (registers (new_events empty_world (final (add_null_port [8443]))) = false)
    as Hnot by reflexivity.
  repeat (split; [assumption |]).
  exact (sentinel_is_zero SSL_TAG FAKE_TAG (sample GRPC_SECURITY_OK 300 400 [8443])
           1 "localhost:0" (Some fake_credentials) empty_world
           1 "localhost:0" None empty_world 8443 0 Hok Hreg Hko Hnot).
Defined.

(** A credential of an unknown type. *)
Lemma context_failure_fails_witness :
  context_failure SSL_TAG FAKE_TAG (sample GRPC_SECURITY_OK 300 400 [8443])
    (Some other_credentials) /\
  let o := grpc_server_add_secure_http2_port SSL_TAG FAKE_TAG
             (sample GRPC_SECURITY_OK 300 400 [8443])
             1 "localhost:0" (Some other_credentials) empty_world in
  returned o = Some 0 /\ heap (final o) = heap empty_world /\
  registers (new_events empty_world (final o)) = false /\
  live [] (new_events empty_world (final o)) = Some [] /\
  Forall (fun e => past_context e = false) (new_events empty_world (final o)).
Proof.
  assert (context_failure SSL_TAG FAKE_TAG (sample GRPC_SECURITY_OK 300 400 [8443])
            (Some other_credentials)) as Hfail by by apply failure_unrecognized.
  split; [exact Hfail |].
  exact (context_failure_fails SSL_TAG FAKE_TAG _ 1 "localhost:0" _ empty_world Hfail).
Defined.

(** A bind that answers port 8443, and a bind that answers port 0. *)
Lemma returns_zero_or_first_port_witness :
  (returned (add_fake_port 300 400 [8443]) = Some 8443 /\ 0 <= 8443) /\
  (binding_reached SSL_TAG FAKE_TAG (sample GRPC_SECURITY_OK 300 400 [0]) "localhost:0"
     (Some fake_credentials) 201 300 {| addrs := map (fun _ => an_address) [0] |} 400
     (fake_port_prelude 300 400) /\
   first_success [0] = Some 0 /\
   registers (new_events empty_world (final (add_fake_port 300 400 [0]))) = true /\
   returned (add_fake_port 300 400 [0]) = Some 0 /\
   returned (add_fake_port 300 400 [0]) = returned (add_null_port [0])).
Proof.
  assert (returned (add_fake_port 300 400 [8443]) = Some 8443) as Hret by reflexivity.
  split.
  - split; [exact Hret |].
    exact (proj1 (proj1 (returns_zero_or_first_port SSL_TAG FAKE_TAG _ 1 "localhost:0"
                           (Some fake_credentials) empty_world) 8443 Hret)).
  - split; [apply fake_port_reached |]. split; [reflexivity |].
    apply (proj2 (returns_zero_or_first_port SSL_TAG FAKE_TAG _ 1 "localhost:0"
                    (Some fake_credentials) empty_world)
             _ _ _ _ _ (fake_port_reached [0])).
    + by apply (agree_one _ _ _ 0).
    + reflexivity.
    + vm_compute. discriminate.
Defined.

(** A handshake that failed, and one that succeeded (the metadata context
    created before the channel arguments are fetched). *)
Lemma handshake_completion_witness :
  (GRPC_SECURITY_ERROR <> GRPC_SECURITY_OK /\
   new_events empty_world
     (final (on_secure_transport_setup_done (sample GRPC_SECURITY_OK 300 400 [])
               Mdctx_first 1 GRPC_SECURITY_ERROR 77 empty_world)) =
   [Ev_gpr_log GPR_ERROR "Secure transport failed with error %d"
      [Arg_status GRPC_SECURITY_ERROR]]) /\
  (exists mdctx,
     Permutation
       (new_events empty_world
          (final (on_secure_transport_setup_done (sample GRPC_SECURITY_OK 300 400 [])
                    Mdctx_first 1 GRPC_SECURITY_OK 77 empty_world)))
       [Ev_server_get_channel_args 1 8; Ev_mdctx_create mdctx;
        Ev_create_chttp2_transport Fn_setup_transport 1 8 77 NULL 0 mdctx 0] /\
     last (new_events empty_world
             (final (on_secure_transport_setup_done (sample GRPC_SECURITY_OK 300 400 [])
                       Mdctx_first 1 GRPC_SECURITY_OK 77 empty_world))) =
       Some (Ev_create_chttp2_transport Fn_setup_transport 1 8 77 NULL 0 mdctx 0) /\
     forall transport w',
       new_events w'
         (final (invoke_setup (sample GRPC_SECURITY_OK 300 400 [])
                   Fn_setup_transport 1 transport mdctx w')) =
       [Ev_server_setup_transport 1 transport
          [grpc_http_server_filter; grpc_http_filter] 2 mdctx]).
Proof.
  assert (GRPC_SECURITY_ERROR <> GRPC_SECURITY_OK) as Hne by discriminate.
  split.
  - split; [exact Hne |].
    exact (proj1 (proj2 (proj2 (proj2 (proj2
             (handshake_completion (sample GRPC_SECURITY_OK 300 400 [])
                Mdctx_first 1 GRPC_SECURITY_ERROR 77 empty_world))))) Hne).
  - exact (proj1 (proj2 (proj2 (proj2
             (handshake_completion (sample GRPC_SECURITY_OK 300 400 [])
                Mdctx_first 1 GRPC_SECURITY_OK 77 empty_world)))) eq_refl).
Defined.

(** Destroying the port registered by a successful call, before any start. *)
Lemma destroy_releases_witness :
  heap (final (add_fake_port 300 400 [8443])) !! 500
    = Some {| tcp := 400; ctx := 201; server := 1 |} /\
  destroy 1 500 (final (add_fake_port 300 400 [8443])) =
  Returned tt
    (unmap 500
       (emits [Ev_tcp_server_destroy 400; Ev_security_context_unref 201; Ev_gpr_free 500]
          (final (add_fake_port 300 400 [8443])))).
Proof.
  assert (heap (final (add_fake_port 300 400 [8443])) !! 500
          = Some {| tcp := 400; ctx := 201; server := 1 |}) as Hsp by reflexivity.
  split; [exact Hsp |].
  exact (proj1 (destroy_releases 1 500 _ _ Hsp)).
Defined.

(** ** Further facts about the calls of a run *)

Lemma logs_app evs1 evs2 : logs (evs1 ++ evs2) = logs evs1 ++ logs evs2.
Proof. apply filter_app. Qed.

Lemma logs_bind_events E tcp rest i : logs (bind_events E tcp rest i) = [].
Proof. revert i. induction rest as [|a rest IH]; intros i; [done | apply IH]. Qed.

Lemma logs_unref_if ctx : logs (unref_if ctx) = [].
Proof. unfold unref_if. by destruct (ctx =? NULL). Qed.

Lemma bind_attempts_app evs1 evs2 :
  bind_attempts (evs1 ++ evs2) = bind_attempts evs1 ++ bind_attempts evs2.
Proof. apply omap_app. Qed.

Lemma bind_attempts_bind_events E tcp rest i :
  bind_attempts (bind_events E tcp rest i) = map (pair tcp) rest.
Proof.
  revert i. induction rest as [|a rest IH]; intros i; [done |].
  simpl. unfold bind_attempts in IH |- *. simpl. by rewrite IH.
Qed.

Lemma bind_attempts_cons e evs :
  bind_attempts (e :: evs) =
  match bind_attempt e with Some x => x :: bind_attempts evs | None => bind_attempts evs end.
Proof. reflexivity. Qed.

Lemma bind_attempts_take k evs :
  exists j, bind_attempts (take k evs) = take j (bind_attempts evs).
Proof.
  revert k. induction evs as [|e evs IH]; intros k.
  - exists 0%nat. by rewrite take_nil.
  - destruct k as [|k]; [by exists 0%nat |].
    destruct (IH k) as [j Hj]. cbn [take]. rewrite !bind_attempts_cons.
    destruct (bind_attempt e).
    + exists (S j). cbn [take]. by rewrite Hj.
    + by exists j.
Qed.

Lemma bind_attempts_unref_if ctx : bind_attempts (unref_if ctx) = [].
Proof. unfold unref_if. by destruct (ctx =? NULL). Qed.

Lemma registrations_app evs1 evs2 :
  registrations (evs1 ++ evs2) = (registrations evs1 + registrations evs2)%nat.
Proof. unfold registrations. by rewrite filter_app, length_app. Qed.

Lemma registrations_none evs : registers evs = false -> registrations evs = 0%nat.
Proof.
  unfold registers, registrations. induction evs as [|e evs IH]; [done |].
  simpl. intros [He Hr]%orb_false_iff. rewrite filter_cons_False by congruence.
  by apply IH.
Qed.

Lemma live_take_bind_events E tcp rest i k held :
  live held (take k (bind_events E tcp rest i)) = Some held.
Proof.
  revert i k. induction rest as [|a rest IH]; intros i [|k]; simpl; try done.
Qed.

Lemma counted_mod rs :
  counted rs = Z.of_nat (length (successes rs)) mod (UINT_MAX + 1).
Proof.
  unfold counted. induction (length (successes rs)) as [|n IH]; [done |].
  change (Nat.iter (S n) unsigned_incr 0) with (unsigned_incr (Nat.iter n unsigned_incr 0)).
  rewrite IH. unfold unsigned_incr.
  rewrite Zplus_mod_idemp_l. f_equal. lia.
Qed.

Section PortFacts.

Variables GRPC_CREDENTIALS_TYPE_SSL GRPC_CREDENTIALS_TYPE_FAKE_TRANSPORT_SECURITY : string.

Variable E : collaborators.

Local Abbreviation SSL := GRPC_CREDENTIALS_TYPE_SSL.
Local Abbreviation FAKE := GRPC_CREDENTIALS_TYPE_FAKE_TRANSPORT_SECURITY.
Local Abbreviation add_port := (grpc_server_add_secure_http2_port SSL FAKE E).
Local Abbreviation context_created := (context_created SSL FAKE E).
Local Abbreviation context_failure := (context_failure SSL FAKE E).
Local Abbreviation binding_reached := (binding_reached SSL FAKE E).

Lemma context_created_logs c ctx evs : context_created c ctx evs -> logs evs = [].
Proof. by intros [config ctx' _ _ _ | ctx' _ _ _]. Qed.

Lemma context_created_attempts c ctx evs :
  context_created c ctx evs -> bind_attempts evs = [].
Proof. by intros [config ctx' _ _ _ | ctx' _ _ _]. Qed.

Lemma binding_reached_logs addr creds ctx resolved set tcp pre :
  binding_reached addr creds ctx resolved set tcp pre -> logs pre = [].
Proof.
  intros [c ctx' evs r set' tcp' -> Hc Hres Hr -> Htcp].
  by rewrite logs_app, (context_created_logs _ _ _ Hc).
Qed.

Lemma binding_reached_attempts addr creds ctx resolved set tcp pre :
  binding_reached addr creds ctx resolved set tcp pre -> bind_attempts pre = [].
Proof.
  intros [c ctx' evs r set' tcp' -> Hc Hres Hr -> Htcp].
  by rewrite bind_attempts_app, (context_created_attempts _ _ _ Hc).
Qed.

(** A run that registered the listener, taken apart. *)
Lemma registered_run server addr creds w p w1 :
  add_port server addr creds w = Returned p w1 ->
  registers (new_events w w1) = true ->
  exists ctx resolved set tcp pre,
    binding_reached addr creds ctx resolved set tcp pre /\
    w1 = store (gpr_malloc E) {| tcp := tcp; ctx := ctx; server := server |}
           (emits (pre ++ binding_success_calls E server resolved tcp set) w).
Proof.
  intros Hrun Hreg.
  destruct (run_cases SSL FAKE E server addr creds w)
    as [(evs & Heq & Hno & _)
       | [(ctx & resolved & set & tcp & pre & k & Hreach & _ & Heq)
         | (ctx & resolved & set & tcp & pre & q & Hreach & _ & _ & _ & Heq)]];
    rewrite Heq in Hrun; [| done |].
  - injection Hrun as <- <-. rewrite new_events_emits in Hreg. congruence.
  - injection Hrun as <- <-. by exists ctx, resolved, set, tcp, pre.
Qed.

(** ** More about [grpc_server_add_secure_http2_port] *)

(** The registration, when there is one, is the last call of the run and the
    only registration: the server is handed the [secured_port] just written,
    with [start] and [destroy], and the run returns. *)
Theorem registration_is_last server addr creds w :
  let o := add_port server addr creds w in
  let calls := new_events w (final o) in
  registers calls = true ->
  last calls = Some (Ev_server_add_listener server (gpr_malloc E) Fn_start Fn_destroy) /\
  registrations calls = 1%nat /\
  exists p, returned o = Some p.
Proof.
  intros o calls Hreg. subst calls o.
  destruct (grpc_server_add_secure_http2_port _ _ _ _ _ _ _) as [p w1|w1] eqn:Hrun.
  - cbn [final returned] in *.
    destruct (registered_run _ _ _ _ _ _ Hrun Hreg)
      as (ctx & resolved & set & tcp & pre & Hreach & ->).
    rewrite new_events_store. unfold binding_success_calls.
    repeat split; [| | by eexists].
    + change [Ev_resolved_addresses_destroy resolved; Ev_gpr_malloc (gpr_malloc E);
              Ev_server_add_listener server (gpr_malloc E) Fn_start Fn_destroy]
        with ([Ev_resolved_addresses_destroy resolved; Ev_gpr_malloc (gpr_malloc E)]
              ++ [Ev_server_add_listener server (gpr_malloc E) Fn_start Fn_destroy]).
      rewrite !app_assoc. apply last_snoc.
    + rewrite !registrations_app.
      rewrite (registrations_none pre)
        by apply (binding_reached_registers SSL FAKE E _ _ _ _ _ _ _ Hreach).
      rewrite (registrations_none (bind_events _ _ _ _)) by apply registers_bind_events.
      by destruct (negb _).
  - cbn [final] in Hreg.
    destruct (run_cases SSL FAKE E server addr creds w)
      as [(evs & Heq & _) | [(ctx & resolved & set & tcp & pre & k & Hreach & _ & Heq)
                            | (? & ? & ? & ? & ? & ? & _ & _ & _ & _ & Heq)]];
      rewrite Heq in Hrun; try done.
    injection Hrun as <-. rewrite new_events_emits in Hreg.
    by rewrite (aborted_registers SSL FAKE E _ _ _ _ _ _ _ _ Hreach) in Hreg.
Qed.

(** A run changes the memory of [secured_port]s only by writing the one it
    registers: without a registration the memory is as before, and in any case
    every other [secured_port] is as before. *)
Theorem other_ports_untouched server addr creds w :
  let o := add_port server addr creds w in
  (registers (new_events w (final o)) = false -> heap (final o) = heap w) /\
  (forall q, q <> gpr_malloc E -> heap (final o) !! q = heap w !! q).
Proof.
  intros o. subst o.
  destruct (run_cases SSL FAKE E server addr creds w)
    as [(evs & -> & _) | [(ctx & resolved & set & tcp & pre & k & _ & _ & ->)
                         | (ctx & resolved & set & tcp & pre & p & _ & _ & _ & _ & ->)]];
    cbn [final]; try done.
  split.
  - rewrite new_events_store, binding_success_registers. done.
  - intros q Hq. simpl. by rewrite lookup_insert_ne.
Qed.

(** Once the binding loop is reached and the successful binds agree, the
    listener is registered exactly when the [unsigned] counter of successful
    binds is not 0 when the loop is left, that is when the number of
    successful binds is no multiple of [UINT_MAX + 1]. *)
Theorem registered_iff_counted server addr creds ctx resolved set tcp pre w :
  binding_reached addr creds ctx resolved set tcp pre ->
  let rs := bind_results E tcp (addrs set) 0 in
  let calls := new_events w (final (add_port server addr creds w)) in
  agree rs ->
  (registers calls = true <-> Z.of_nat (length (successes rs)) mod (UINT_MAX + 1) <> 0).
Proof.
  intros Hreach rs calls Hagree. subst calls rs. rewrite <- counted_mod.
  destruct (run_binding_cases SSL FAKE E server addr creds _ _ _ _ _ w Hreach)
    as [[Hno _] | [(_ & Hzero & ->) | (_ & Hcount & p & _ & ->)]]; [done | |];
    cbn [final].
  - destruct (binding_failure_clean SSL FAKE E _ _ _ _ _ _ _ Hreach) as [_ Hreg].
    rewrite new_events_emits, Hreg. split; [done | by intros []].
  - by rewrite new_events_store, binding_success_registers.
Qed.

(** Once the binding loop is reached, when every resolved address binds
    (there is one at least, they agree on the port, their number is within
    the range of the counter), the call succeeds without a log line: after the
    binds it gives the address set back, writes the [secured_port] and
    registers it. *)
Theorem full_binding_is_silent server addr creds ctx resolved set tcp pre w :
  binding_reached addr creds ctx resolved set tcp pre ->
  let rs := bind_results E tcp (addrs set) 0 in
  successes rs = rs -> rs <> [] -> naddrs set <= UINT_MAX -> agree rs ->
  exists p,
    Forall (fun r => r = p) rs /\ 0 <= p /\
    add_port server addr creds w =
    Returned p
      (store (gpr_malloc E) {| tcp := tcp; ctx := ctx; server := server |}
         (emits (pre ++ bind_events E tcp (addrs set) 0
                 ++ [Ev_resolved_addresses_destroy resolved;
                     Ev_gpr_malloc (gpr_malloc E);
                     Ev_server_add_listener server (gpr_malloc E) Fn_start Fn_destroy])
            w)) /\
    logs (new_events w (final (add_port server addr creds w))) = [].
Proof.
  intros Hreach rs Hall Hne Hmax Hagree. subst rs.
  assert (Z.of_nat (length (successes (bind_results E tcp (addrs set) 0))) = naddrs set)
    as Hlen.
  { rewrite Hall. unfold naddrs. f_equal. clear.
    generalize 0%nat. induction (addrs set) as [|a l IH]; intros i; simpl; [done |].
    by rewrite IH. }
  pose proof (counted_small (bind_results E tcp (addrs set) 0)) as Hcount.
  rewrite Hlen in Hcount. specialize (Hcount Hmax).
  destruct (run_binding_cases SSL FAKE E server addr creds _ _ _ _ _ w Hreach)
    as [[Hno _] | [(_ & Hzero & _) | (_ & _ & p & Hp & Hrun)]].
  - done.
  - rewrite Hzero in Hcount. rewrite <- Hcount in Hlen. rewrite Hall in Hlen.
    by destruct (bind_results E tcp (addrs set) 0).
  - exists p. pose proof (agree_first _ _ Hagree Hp) as Hfor. rewrite Hall in Hfor.
    assert (binding_success_calls E server resolved tcp set
            = bind_events E tcp (addrs set) 0
              ++ [Ev_resolved_addresses_destroy resolved; Ev_gpr_malloc (gpr_malloc E);
                  Ev_server_add_listener server (gpr_malloc E) Fn_start Fn_destroy])
      as Hcalls.
    { unfold binding_success_calls. cbv zeta. rewrite Hcount, Z.eqb_refl. reflexivity. }
    rewrite Hcalls in Hrun. rewrite Hrun. cbn [final].
    repeat split; [done | by eapply first_success_nonneg |].
    rewrite new_events_store, !logs_app,
      (binding_reached_logs _ _ _ _ _ _ _ Hreach), logs_bind_events. reflexivity.
Qed.

(** Once the binding loop is reached: a run that returns has tried every
    resolved address once, in the order of the set, on the one tcp server it
    created, whatever the binds before answered; a run that aborts on the
    assertion has tried the addresses of a prefix of the set. *)
Theorem every_address_is_tried server addr creds ctx resolved set tcp pre w :
  binding_reached addr creds ctx resolved set tcp pre ->
  let o := add_port server addr creds w in
  let calls := new_events w (final o) in
  (forall v, returned o = Some v -> bind_attempts calls = map (pair tcp) (addrs set)) /\
  (returned o = None ->
   exists k, bind_attempts calls = take k (map (pair tcp) (addrs set))).
Proof.
  intros Hreach o calls. subst calls o.
  pose proof (binding_reached_attempts _ _ _ _ _ _ _ Hreach) as Hpre.
  destruct (run_binding_cases SSL FAKE E server addr creds _ _ _ _ _ w Hreach)
    as [[_ [k ->]] | [(_ & _ & ->) | (_ & _ & p & _ & ->)]]; cbn [final returned].
  - split; [done |]. intros _. rewrite new_events_emits, !bind_attempts_app, Hpre.
    destruct (bind_attempts_take k (bind_events E tcp (addrs set) 0)) as [j Hj].
    exists j. rewrite Hj, bind_attempts_bind_events. cbn [app]. apply app_nil_r.
  - split; [| done]. intros v _. unfold binding_failure_calls.
    rewrite new_events_emits, !bind_attempts_app, Hpre, bind_attempts_bind_events,
      bind_attempts_unref_if.
    cbn [app]. by rewrite app_nil_r.
  - split; [| done]. intros v _. unfold binding_success_calls.
    rewrite new_events_store, !bind_attempts_app, Hpre, bind_attempts_bind_events.
    destruct (negb _); cbn [app]; by rewrite app_nil_r.
Qed.

(** When the assertion fails nothing is given back: the context, the address
    set and the tcp server are still held when the process aborts, and the
    memory of [secured_port]s is as before. *)
Theorem assertion_failure_releases_nothing server addr creds ctx resolved set tcp pre w :
  binding_reached addr creds ctx resolved set tcp pre ->
  ~ agree (bind_results E tcp (addrs set) 0) ->
  let o := add_port server addr creds w in
  live [] (new_events w (final o))
    = Some (holding Security_context ctx ++ [Resolved_addresses resolved; Tcp_server tcp]) /\
  heap (final o) = heap w.
Proof.
  intros Hreach Hno o. subst o.
  destruct (run_binding_cases SSL FAKE E server addr creds _ _ _ _ _ w Hreach)
    as [[_ [k ->]] | [(Hagree & _) | (Hagree & _)]]; [| done..].
  cbn [final]. split; [| done].
  rewrite new_events_emits.
  rewrite (live_app_Some _ _ _ _ (binding_reached_live SSL FAKE E _ _ _ _ _ _ _ Hreach)).
  by rewrite (live_app_Some _ _ _ _ (live_take_bind_events _ _ _ _ _ _)).
Qed.

End PortFacts.

(** ** The life of a registered port *)

Lemma new_events_refl w : new_events w w = [].
Proof. unfold new_events. by rewrite drop_all. Qed.

Lemma logs_take_bind_events E tcp rest i k : logs (take k (bind_events E tcp rest i)) = [].
Proof. revert i k. induction rest as [|a rest IH]; intros i [|k]; try done. apply IH. Qed.

Lemma live_destroy_calls c t s srv held :
  t <> NULL ->
  live (holding Security_context c ++ [Tcp_server t] ++ holding Secured_port_storage s
        ++ held)
    (destroy_calls s {| tcp := t; ctx := c; server := srv |}) = Some held.
Proof.
  intros Ht. unfold destroy_calls, holding. cbn [tcp ctx live acquired released].
  rewrite (object_nonnull Tcp_server t Ht). unfold object.
  destruct (Z.eqb_spec c NULL), (Z.eqb_spec s NULL); simpl;
    repeat first [ rewrite decide_True by done | rewrite decide_False by done
                 | rewrite give_back_head | progress simpl ];
    reflexivity.
Qed.

Section LifeFacts.

Variables GRPC_CREDENTIALS_TYPE_SSL GRPC_CREDENTIALS_TYPE_FAKE_TRANSPORT_SECURITY : string.

Variable E : collaborators.

Local Abbreviation SSL := GRPC_CREDENTIALS_TYPE_SSL.
Local Abbreviation FAKE := GRPC_CREDENTIALS_TYPE_FAKE_TRANSPORT_SECURITY.
Local Abbreviation add_port := (grpc_server_add_secure_http2_port SSL FAKE E).
Local Abbreviation context_created := (context_created SSL FAKE E).
Local Abbreviation context_failure := (context_failure SSL FAKE E).
Local Abbreviation binding_reached := (binding_reached SSL FAKE E).

Lemma binding_reached_context addr creds ctx resolved set tcp pre :
  binding_reached addr creds ctx resolved set tcp pre ->
  tcp = grpc_tcp_server_create E /\
  exists c evs, creds = Some c /\ context_created c ctx evs.
Proof.
  intros [c ctx' evs r set' tcp' -> Hc Hres Hr -> Htcp]. split; [done |]. by exists c, evs.
Qed.

(** A null credential makes the call return 0 without any call; a failed
    resolution and a failed creation of the tcp server make it return 0
    without a log line. *)
Theorem unlogged_failures server addr w :
  add_port server addr None w = Returned 0 w /\
  (forall c ctx evs,
     context_created c ctx evs ->
     fst (grpc_blocking_resolve_address E addr "https") = NULL \/
     grpc_tcp_server_create E = NULL ->
     let o := add_port server addr (Some c) w in
     returned o = Some 0 /\ logs (new_events w (final o)) = []).
Proof.
  split; [reflexivity |]. intros c ctx evs Hc Hnull o. subst o.
  pose proof (context_created_logs SSL FAKE E _ _ _ Hc) as Hlogs.
  destruct (decide (fst (grpc_blocking_resolve_address E addr "https") = NULL)) as [Hr|Hr].
  - rewrite (run_resolution_failure SSL FAKE E _ _ _ _ _ _ Hc Hr). cbn [final returned].
    by rewrite new_events_emits, !logs_app, Hlogs, logs_unref_if.
  - destruct Hnull as [?|Htcp]; [done |].
    rewrite (run_listener_failure SSL FAKE E _ _ _ _ _ _ Hc Hr Htcp). cbn [final returned].
    by rewrite new_events_emits, !logs_app, Hlogs, logs_unref_if.
Qed.

(** A run that returns has logged one line at most. *)
Theorem at_most_one_log_line server addr creds w v :
  returned (add_port server addr creds w) = Some v ->
  (length (logs (new_events w (final (add_port server addr creds w)))) <= 1)%nat.
Proof.
  intros _.
  destruct (context_cases SSL FAKE E creds)
    as [[|c Hssl Hfake|c status ctx Hssl Hcreate Hst] | (c & ctx & evs & -> & Hc)].
  - rewrite run_null. cbn [final]. rewrite new_events_refl. simpl. lia.
  - rewrite run_unrecognized by done. cbn [final]. rewrite new_events_emits. simpl. lia.
  - rewrite (run_construction_failure SSL FAKE E _ _ _ _ _ _ Hssl Hcreate Hst).
    cbn [final]. rewrite new_events_emits, logs_app, logs_unref_if. simpl. lia.
  - pose proof (context_created_logs SSL FAKE E _ _ _ Hc) as Hlogs.
    destruct (decide (fst (grpc_blocking_resolve_address E addr "https") = NULL)) as [Hr|Hr].
    { rewrite (run_resolution_failure SSL FAKE E _ _ _ _ _ _ Hc Hr). cbn [final].
      rewrite new_events_emits, !logs_app, Hlogs, logs_unref_if. simpl. lia. }
    destruct (decide (grpc_tcp_server_create E = NULL)) as [Htcp|Htcp].
    { rewrite (run_listener_failure SSL FAKE E _ _ _ _ _ _ Hc Hr Htcp). cbn [final].
      rewrite new_events_emits, !logs_app, Hlogs, logs_unref_if. simpl. lia. }
    destruct (grpc_blocking_resolve_address E addr "https") as [resolved set] eqn:Hres.
    assert (binding_reached addr (Some c) ctx resolved set (grpc_tcp_server_create E)
              (evs ++ [Ev_blocking_resolve_address addr "https" resolved;
                       Ev_tcp_server_create (grpc_tcp_server_create E)])) as Hreach
      by by eapply reached.
    remember (evs ++ [Ev_blocking_resolve_address addr "https" resolved;
                      Ev_tcp_server_create (grpc_tcp_server_create E)]) as pre eqn:Hdef.
    clear Hdef.
    pose proof (binding_reached_logs SSL FAKE E _ _ _ _ _ _ _ Hreach) as Hpre.
    destruct (run_binding_cases SSL FAKE E server addr _ _ _ _ _ _ w Hreach)
      as [[_ [k ->]] | [(_ & _ & ->) | (_ & _ & p & _ & ->)]]; cbn [final].
    + rewrite new_events_emits, !logs_app, Hpre, logs_take_bind_events. simpl. lia.
    + unfold binding_failure_calls.
      rewrite new_events_emits, !logs_app, Hpre, logs_bind_events, logs_unref_if.
      simpl. lia.
    + unfold binding_success_calls.
      rewrite new_events_store, !logs_app, Hpre, logs_bind_events.
      destruct (negb _); simpl; lia.
Qed.

(** After a run that registered the listener, [start] on the registered
    [secured_port] starts the tcp server created in that run, with [on_accept]
    and the [secured_port] as its argument; this holds in any later world that
    still has the [secured_port] as the run wrote it. *)
Theorem start_starts_bound_server server addr creds w p w1 :
  add_port server addr creds w = Returned p w1 ->
  registers (new_events w w1) = true ->
  forall srv pollsets pollset_count w2,
    heap w2 !! gpr_malloc E = heap w1 !! gpr_malloc E ->
    start srv (gpr_malloc E) pollsets pollset_count w2 =
    Returned tt
      (emit (Ev_tcp_server_start (grpc_tcp_server_create E) pollsets pollset_count
               Fn_on_accept (gpr_malloc E)) w2).
Proof.
  intros Hrun Hreg srv pollsets n w2 Hsame.
  destruct (registered_run SSL FAKE E _ _ _ _ _ _ Hrun Hreg)
    as (ctx & resolved & set & tcp & pre & Hreach & ->).
  destruct (binding_reached_context _ _ _ _ _ _ _ Hreach) as [-> _].
  unfold start. rewrite Hsame. simpl. by rewrite lookup_insert_eq.
Qed.

(** After a run that registered the listener, [on_accept] on the registered
    [secured_port] starts one handshake on the accepted endpoint, with the
    context created from the credential of that run, with
    [on_secure_transport_setup_done] as completion and the server of that run
    as its argument; it leaves the memory as it is. *)
Theorem accept_uses_port_context server addr creds w p w1 :
  add_port server addr creds w = Returned p w1 ->
  registers (new_events w w1) = true ->
  exists c ctx evs,
    creds = Some c /\ context_created c ctx evs /\
    forall endpoint w2,
      heap w2 !! gpr_malloc E = heap w1 !! gpr_malloc E ->
      on_accept (gpr_malloc E) endpoint w2 =
      Returned tt
        (emit (Ev_setup_secure_transport ctx endpoint
                 Fn_on_secure_transport_setup_done server) w2).
Proof.
  intros Hrun Hreg.
  destruct (registered_run SSL FAKE E _ _ _ _ _ _ Hrun Hreg)
    as (ctx & resolved & set & tcp & pre & Hreach & ->).
  destruct (binding_reached_context _ _ _ _ _ _ _ Hreach) as (_ & c & evs & -> & Hc).
  exists c, ctx, evs. repeat split; [done |].
  intros endpoint w2 Hsame. unfold on_accept. rewrite Hsame. simpl.
  by rewrite lookup_insert_eq.
Qed.

(** After a run that registered the listener, [destroy] on the registered
    [secured_port], before any [start] or after one, gives back everything
    the run still held: over the run and the [destroy] together no resource
    stays held and none is released twice, and the [secured_port] is gone
    from the memory. *)
Theorem port_life_is_balanced server addr creds w p w1 srv :
  add_port server addr creds w = Returned p w1 ->
  registers (new_events w w1) = true ->
  (exists w3,
     destroy srv (gpr_malloc E) w1 = Returned tt w3 /\
     live [] (new_events w w3) = Some [] /\
     heap w3 !! gpr_malloc E = None) /\
  (forall pollsets pollset_count,
   exists w2 w3,
     start srv (gpr_malloc E) pollsets pollset_count w1 = Returned tt w2 /\
     destroy srv (gpr_malloc E) w2 = Returned tt w3 /\
     live [] (new_events w w3) = Some [] /\
     heap w3 !! gpr_malloc E = None).
Proof.
  intros Hrun Hreg.
  destruct (registered_run SSL FAKE E _ _ _ _ _ _ Hrun Hreg)
    as (ctx & resolved & set & tcp & pre & Hreach & Hw1).
  destruct (binding_reached_nonnull SSL FAKE E _ _ _ _ _ _ _ Hreach) as [_ Htcp].
  pose proof (binding_success_live SSL FAKE E _ _ server _ _ _ _ _ Hreach) as Hlive.
  pose proof (live_destroy_calls ctx tcp (gpr_malloc E) server [] Htcp) as Hback.
  rewrite app_nil_r in Hback.
  assert (heap w1 !! gpr_malloc E = Some {| tcp := tcp; ctx := ctx; server := server |})
    as Hcell by (rewrite Hw1; simpl; apply lookup_insert_eq).
  assert (trace w1 = trace w ++ pre ++ binding_success_calls E server resolved tcp set)
    as Htrace by by rewrite Hw1.
  clear Hw1 Hrun Hreg.
  assert (forall w2,
            heap w2 !! gpr_malloc E = heap w1 !! gpr_malloc E ->
            destroy srv (gpr_malloc E) w2 =
            Returned tt
              (unmap (gpr_malloc E)
                 (emits (destroy_calls (gpr_malloc E)
                           {| tcp := tcp; ctx := ctx; server := server |}) w2)))
    as Hdestroy.
  { intros w2 Hsame. unfold destroy, destroy_calls. rewrite Hsame, Hcell.
    by rewrite !emit_emits, !emits_emits. }
  split.
  - eexists. split; [by apply Hdestroy |]. split; [| simpl; apply lookup_delete_eq].
    unfold new_events. cbn [trace unmap emits]. rewrite Htrace.
    rewrite <- !app_assoc, drop_app_length, app_assoc.
    by rewrite (live_app_Some _ _ _ _ Hlive).
  - intros pollsets n. eexists. eexists. split.
    { unfold start. rewrite Hcell. reflexivity. }
    split; [by apply Hdestroy |]. split; [| simpl; apply lookup_delete_eq].
    unfold new_events. cbn [trace unmap emits emit]. rewrite Htrace.
    rewrite <- !app_assoc, drop_app_length, app_assoc.
    rewrite (live_app_Some _ _ _ _ Hlive). exact Hback.
Qed.

End LifeFacts.

(** [destroy] on one [secured_port] leaves every other one in the memory, so
    that the other one can still be destroyed, with its own three calls. *)
Theorem destroy_leaves_other_ports srv spp sp spp' sp' w :
  heap w !! spp = Some sp ->
  heap w !! spp' = Some sp' ->
  spp <> spp' ->
  exists w1,
    destroy srv spp w = Returned tt w1 /\
    heap w1 !! spp = None /\
    heap w1 !! spp' = Some sp' /\
    destroy srv spp' w1 = Returned tt (unmap spp' (emits (destroy_calls spp' sp') w1)).
Proof.
  intros Hsp Hsp' Hne. eexists. unfold destroy at 1. rewrite Hsp.
  split; [reflexivity |].
  assert (forall evs, heap (unmap spp evs) !! spp' = heap evs !! spp') as Hkeep.
  { intros w0. simpl. by rewrite lookup_delete_ne. }
  split; [simpl; apply lookup_delete_eq |]. split; [by rewrite Hkeep |].
  unfold destroy. rewrite Hkeep. cbn [heap emit]. rewrite Hsp'.
  unfold destroy_calls.
  by rewrite !(emit_emits (Ev_tcp_server_destroy (tcp sp'))),
       !(emit_emits (Ev_security_context_unref (ctx sp'))),
       !(emit_emits (Ev_gpr_free spp')), !emits_emits.
Qed.

(** Whatever the status of a completed handshake, the port goes on accepting:
    [on_accept] after the completion starts the next handshake with the
    context and the server of the [secured_port], as before it. *)
Theorem completion_keeps_port_accepting E order srv status endpoint spp sp endpoint' w :
  heap w !! spp = Some sp ->
  let w1 := final (on_secure_transport_setup_done E order srv status endpoint w) in
  on_accept spp endpoint' w1 =
  Returned tt
    (emit (Ev_setup_secure_transport (ctx sp) endpoint'
             Fn_on_secure_transport_setup_done (server sp)) w1).
Proof.
  intros Hsp w1. subst w1. unfold on_accept, on_secure_transport_setup_done.
  destruct (is_security_ok status), order; cbn [final heap emit]; by rewrite Hsp.
Qed.

(** ** The assertion and the dispatch on the credential *)

(** When the loop is left on the failed assertion, the last two calls made
    are the bind that answered a port other than the one retained and the log
    line of the assertion. *)
Lemma bind_loop_abort E tcp rest : forall i p c w w',
  p = -1 \/ 0 <= p ->
  bind_loop E tcp rest i p c w = Aborted w' ->
  exists mid a q,
    w' = emits (mid ++ [Ev_tcp_server_add_port tcp a q;
                        assertion_failed "port_num == port_temp"]) w /\
    0 <= q /\
    Some q <> (if p =? -1 then first_success (bind_results E tcp rest i) else Some p).
Proof.
  induction rest as [|a rest IH]; intros i p c w w' Hp; simpl; [done |].
  set (pt := grpc_tcp_server_add_port E i tcp a).
  unfold first_success. destruct (Z.geb_spec pt 0) as [Hpt|Hpt].
  - rewrite successes_cons_ok by lia. cbn [head].
    destruct (Z.eqb_spec p (-1)) as [->|Hne].
    + intros Hrun. apply IH in Hrun as (mid & a' & q & -> & Hq & Hdiff); [| lia].
      destruct (Z.eqb_spec pt (-1)) as [?|_]; [lia |].
      exists (Ev_tcp_server_add_port tcp a pt :: mid), a', q.
      split; [by rewrite <- app_comm_cons, emits_cons | done].
    + destruct (Z.eqb_spec p pt) as [<-|Hdiff].
      * intros Hrun. apply IH in Hrun as (mid & a' & q & -> & Hq & Hdiff); [| lia].
        destruct (Z.eqb_spec p (-1)) as [?|_]; [done |].
        exists (Ev_tcp_server_add_port tcp a p :: mid), a', q.
        split; [by rewrite <- app_comm_cons, emits_cons | done].
      * intros [= <-]. exists [], a, pt.
        split; [by rewrite !emit_emits, emits_emits |]. split; [lia | congruence].
  - rewrite successes_cons_fail by lia. intros Hrun.
    apply IH in Hrun as (mid & a' & q & -> & Hq & Hdiff); [| done].
    exists (Ev_tcp_server_add_port tcp a pt :: mid), a', q.
    split; [by rewrite <- app_comm_cons, emits_cons | done].
Qed.

Lemma creations_app evs1 evs2 : creations (evs1 ++ evs2) = creations evs1 ++ creations evs2.
Proof. apply filter_app. Qed.

Lemma creations_bind_events E tcp rest i : creations (bind_events E tcp rest i) = [].
Proof. revert i. induction rest as [|a rest IH]; intros i; [done | apply IH]. Qed.

Lemma creations_take_bind_events E tcp rest i k :
  creations (take k (bind_events E tcp rest i)) = [].
Proof. revert i k. induction rest as [|a rest IH]; intros i [|k]; try done. apply IH. Qed.

Lemma creations_unref_if ctx : creations (unref_if ctx) = [].
Proof. unfold unref_if. by destruct (ctx =? NULL). Qed.

Section DispatchFacts.

Variables GRPC_CREDENTIALS_TYPE_SSL GRPC_CREDENTIALS_TYPE_FAKE_TRANSPORT_SECURITY : string.

Variable E : collaborators.

Local Abbreviation SSL := GRPC_CREDENTIALS_TYPE_SSL.
Local Abbreviation FAKE := GRPC_CREDENTIALS_TYPE_FAKE_TRANSPORT_SECURITY.
Local Abbreviation add_port := (grpc_server_add_secure_http2_port SSL FAKE E).
Local Abbreviation context_created := (context_created SSL FAKE E).
Local Abbreviation binding_reached := (binding_reached SSL FAKE E).

(** When the assertion fails, the run ends with a bind that answered a port
    number other than the port of the first successful bind, followed by the
    log line of the assertion: the run stops there, and no later address is
    tried. *)
Theorem abort_at_first_mismatch server addr creds ctx resolved set tcp pre w :
  binding_reached addr creds ctx resolved set tcp pre ->
  let o := add_port server addr creds w in
  returned o = None ->
  exists front a q,
    new_events w (final o) =
      front ++ [Ev_tcp_server_add_port tcp a q;
                assertion_failed "port_num == port_temp"] /\
    0 <= q /\
    Some q <> first_success (bind_results E tcp (addrs set) 0).
Proof.
  intros Hreach o Hret. subst o.
  rewrite (run_binding SSL FAKE E _ _ _ _ _ _ _ _ _ Hreach) in Hret |- *.
  destruct (bind_loop E tcp (addrs set) 0 (-1) 0 (emits pre w)) as [[p n] w'|w'] eqn:Hloop.
  { by destruct (n =? 0). }
  apply bind_loop_abort in Hloop as (mid & a & q & -> & Hq & Hdiff); [| by left].
  exists (pre ++ mid), a, q. repeat split; [| done..].
  cbn [final]. by rewrite emits_emits, new_events_emits, app_assoc.
Qed.

(** After the context is created the run asks for the resolution of the
    caller's address with the default port "https", and calls no construction
    routine again. *)
Lemma created_run_shape server addr c ctx evs w :
  context_created c ctx evs ->
  exists rest,
    new_events w (final (add_port server addr (Some c) w)) =
    evs ++ Ev_blocking_resolve_address addr "https"
             (fst (grpc_blocking_resolve_address E addr "https")) :: rest /\
    creations rest = [].
Proof.
  intros Hc.
  destruct (decide (fst (grpc_blocking_resolve_address E addr "https") = NULL)) as [Hr|Hr].
  { rewrite (run_resolution_failure SSL FAKE E _ _ _ _ _ _ Hc Hr). cbn [final].
    rewrite new_events_emits, Hr. exists (unref_if ctx). split; [done |].
    apply creations_unref_if. }
  destruct (decide (grpc_tcp_server_create E = NULL)) as [Htcp|Htcp].
  { rewrite (run_listener_failure SSL FAKE E _ _ _ _ _ _ Hc Hr Htcp). cbn [final].
    rewrite new_events_emits.
    exists ([Ev_tcp_server_create NULL] ++ unref_if ctx
            ++ [Ev_resolved_addresses_destroy
                  (fst (grpc_blocking_resolve_address E addr "https"))]).
    split; [done |]. by rewrite !creations_app, creations_unref_if. }
  destruct (grpc_blocking_resolve_address E addr "https") as [resolved set] eqn:Hres.
  cbn [fst] in *.
  assert (binding_reached addr (Some c) ctx resolved set (grpc_tcp_server_create E)
            (evs ++ [Ev_blocking_resolve_address addr "https" resolved;
                     Ev_tcp_server_create (grpc_tcp_server_create E)])) as Hreach
    by by eapply reached.
  assert (forall tail,
            creations tail = [] ->
            exists rest,
              (evs ++ [Ev_blocking_resolve_address addr "https" resolved;
                       Ev_tcp_server_create (grpc_tcp_server_create E)]) ++ tail =
              evs ++ Ev_blocking_resolve_address addr "https" resolved :: rest /\
              creations rest = []) as Hshape.
  { intros tail Htail. exists (Ev_tcp_server_create (grpc_tcp_server_create E) :: tail).
    split; [by rewrite <- app_assoc | exact Htail]. }
  destruct (run_binding_cases SSL FAKE E server addr _ _ _ _ _ _ w Hreach)
    as [[_ [k ->]] | [(_ & _ & ->) | (_ & _ & p & _ & ->)]]; cbn [final];
    rewrite ?new_events_emits, ?new_events_store; apply Hshape.
  - by rewrite creations_app, creations_take_bind_events.
  - unfold binding_failure_calls.
    by rewrite !creations_app, creations_bind_events, creations_unref_if.
  - unfold binding_success_calls.
    rewrite !creations_app, creations_bind_events. by destruct (negb _).
Qed.

(** The credential decides which construction routine is called, and it is
    called once: the SSL routine, on the configuration of the credential, for
    the SSL tag; the fake routine for the fake tag, after which the run always
    goes on to the resolution, whatever the routine answered; none for any
    other tag. *)
Theorem credential_dispatch server addr c w :
  let calls := new_events w (final (add_port server addr (Some c) w)) in
  (type c = SSL ->
   exists status ctx,
     grpc_ssl_server_security_context_create E
       (grpc_ssl_server_credentials_get_config E (self c)) = (status, ctx) /\
     creations calls =
     [Ev_ssl_server_security_context_create
        (grpc_ssl_server_credentials_get_config E (self c)) status ctx]) /\
  (type c <> SSL -> type c = FAKE ->
   creations calls
     = [Ev_fake_server_security_context_create (grpc_fake_server_security_context_create E)] /\
   Ev_blocking_resolve_address addr "https"
     (fst (grpc_blocking_resolve_address E addr "https")) ∈ calls) /\
  (type c <> SSL -> type c <> FAKE -> creations calls = []).
Proof.
  intros calls. subst calls. repeat split.
  - intros Hssl.
    destruct (grpc_ssl_server_security_context_create E
                (grpc_ssl_server_credentials_get_config E (self c)))
      as [status ctx] eqn:Hcreate.
    exists status, ctx. split; [done |].
    destruct (decide (status = GRPC_SECURITY_OK)) as [->|Hst].
    + assert (context_created c ctx
                [Ev_ssl_server_credentials_get_config (self c)
                   (grpc_ssl_server_credentials_get_config E (self c));
                 Ev_ssl_server_security_context_create
                   (grpc_ssl_server_credentials_get_config E (self c))
                   GRPC_SECURITY_OK ctx]) as Hc by by eapply created_ssl.
      destruct (created_run_shape server addr c ctx _ w Hc) as (rest & -> & Hrest).
      cbn [app]. unfold creations in *. rewrite filter_cons_False by done.
      rewrite filter_cons_True by done. rewrite filter_cons_False by done.
      by rewrite Hrest.
    + rewrite (run_construction_failure SSL FAKE E _ _ _ _ _ _ Hssl Hcreate Hst).
      cbn [final]. rewrite new_events_emits, creations_app, creations_unref_if.
      reflexivity.
  - assert (context_created c (grpc_fake_server_security_context_create E)
              [Ev_fake_server_security_context_create
                 (grpc_fake_server_security_context_create E)]) as Hc
      by by eapply created_fake.
    destruct (created_run_shape server addr c _ _ w Hc) as (rest & -> & Hrest).
    cbn [app]. unfold creations in *. rewrite filter_cons_True by done.
    rewrite filter_cons_False by done. by rewrite Hrest.
  - assert (context_created c (grpc_fake_server_security_context_create E)
              [Ev_fake_server_security_context_create
                 (grpc_fake_server_security_context_create E)]) as Hc
      by by eapply created_fake.
    destruct (created_run_shape server addr c _ _ w Hc) as (rest & -> & Hrest).
    cbn [app]. set_solver.
  - intros Hssl Hfake. rewrite run_unrecognized by done. cbn [final].
    by rewrite new_events_emits.
Qed.

End DispatchFacts.

(** ** The further facts at concrete inputs *)

Lemma one_port_run : add_fake_port 300 400 [8443] = Returned 8443 one_port_world.
Proof. reflexivity. Qed.

Lemma one_port_registered :
  registers (new_events empty_world one_port_world) = true.
Proof. reflexivity. Qed.

Lemma ports_5_6_disagree : ~ agree [5; -1; 6].
Proof.
  intros Hagree. specialize (Hagree 5 6).
  assert (5 = 6) as Heq; [| lia].
  apply Hagree; vm_compute; repeat constructor.
Qed.

Lemma registration_is_last_witness :
  registers (new_events empty_world (final (add_fake_port 300 400 [8443]))) = true /\
  last (new_events empty_world (final (add_fake_port 300 400 [8443])))
    = Some (Ev_server_add_listener 1 500 Fn_start Fn_destroy) /\
  registrations (new_events empty_world (final (add_fake_port 300 400 [8443]))) = 1%nat /\
  exists p, returned (add_fake_port 300 400 [8443]) = Some p.
Proof.
  split; [exact one_port_registered |].
  exact (registration_is_last SSL_TAG FAKE_TAG (sample GRPC_SECURITY_OK 300 400 [8443])
           1 "localhost:0" (Some fake_credentials) empty_world one_port_registered).
Defined.

Lemma other_ports_untouched_witness :
  (registers (new_events empty_world (final (add_fake_port 300 400 [-1]))) = false /\
   heap (final (add_fake_port 300 400 [-1])) = heap empty_world) /\
  (7 <> 500 /\ heap (final (add_fake_port 300 400 [8443])) !! 7 = heap empty_world !! 7).
Proof.
  assert (registers (new_events empty_world (final (add_fake_port 300 400 [-1]))) = false)
    as Hno by reflexivity.
  assert (7 <> 500) as Hne by lia.
  split; (split; [assumption |]).
  - exact (proj1 (other_ports_untouched SSL_TAG FAKE_TAG
                    (sample GRPC_SECURITY_OK 300 400 [-1])
                    1 "localhost:0" (Some fake_credentials) empty_world) Hno).
  - exact (proj2 (other_ports_untouched SSL_TAG FAKE_TAG
                    (sample GRPC_SECURITY_OK 300 400 [8443])
                    1 "localhost:0" (Some fake_credentials) empty_world) 7 Hne).
Defined.

Lemma registered_iff_counted_witness :
  binding_reached SSL_TAG FAKE_TAG (sample GRPC_SECURITY_OK 300 400 [-1; 8443]) "localhost:0"
    (Some fake_credentials) 201 300 {| addrs := map (fun _ => an_address) [-1; 8443] |} 400
    (fake_port_prelude 300 400) /\
  agree [-1; 8443] /\
  (registers (new_events empty_world (final (add_fake_port 300 400 [-1; 8443]))) = true
   <-> Z.of_nat (length (successes [-1; 8443])) mod (UINT_MAX + 1) <> 0).
Proof.
  assert (agree (bind_results (sample GRPC_SECURITY_OK 300 400 [-1; 8443]) 400
                   (map (fun _ => an_address) [-1; 8443]) 0)) as Hagree
    by by apply (agree_one _ _ _ 8443).
  split; [apply fake_port_reached |]. split; [exact Hagree |].
  exact (registered_iff_counted SSL_TAG FAKE_TAG _ 1 "localhost:0" (Some fake_credentials)
           _ _ _ _ _ empty_world (fake_port_reached [-1; 8443]) Hagree).
Defined.

Lemma full_binding_is_silent_witness :
  successes [8443; 8443] = [8443; 8443] /\
  exists p,
    Forall (fun r => r = p) [8443; 8443] /\ 0 <= p /\
    add_fake_port 300 400 [8443; 8443] =
    Returned p
      (store 500 {| tcp := 400; ctx := 201; server := 1 |}
         (emits (fake_port_prelude 300 400
                 ++ [Ev_tcp_server_add_port 400 an_address 8443;
                     Ev_tcp_server_add_port 400 an_address 8443]
                 ++ [Ev_resolved_addresses_destroy 300; Ev_gpr_malloc 500;
                     Ev_server_add_listener 1 500 Fn_start Fn_destroy]) empty_world)) /\
    logs (new_events empty_world (final (add_fake_port 300 400 [8443; 8443]))) = [].
Proof.
  split; [reflexivity |].
  apply (full_binding_is_silent SSL_TAG FAKE_TAG _ 1 "localhost:0" (Some fake_credentials)
           _ _ _ _ _ empty_world (fake_port_reached [8443; 8443])).
  - reflexivity.
  - discriminate.
  - vm_compute. discriminate.
  - intros x y Hx Hy. vm_compute in Hx, Hy.
    apply list_elem_of_In in Hx, Hy. simpl in Hx, Hy. intuition congruence.
Defined.

Lemma every_address_is_tried_witness :
  binding_reached SSL_TAG FAKE_TAG (sample GRPC_SECURITY_OK 300 400 [-1; 8443]) "localhost:0"
    (Some fake_credentials) 201 300 {| addrs := map (fun _ => an_address) [-1; 8443] |} 400
    (fake_port_prelude 300 400) /\
  returned (add_fake_port 300 400 [-1; 8443]) = Some 8443 /\
  bind_attempts (new_events empty_world (final (add_fake_port 300 400 [-1; 8443])))
    = [(400, an_address); (400, an_address)].
Proof.
  assert (returned (add_fake_port 300 400 [-1; 8443]) = Some 8443) as Hret by reflexivity.
  split; [apply fake_port_reached |]. split; [exact Hret |].
  exact (proj1 (every_address_is_tried SSL_TAG FAKE_TAG _ 1 "localhost:0"
                  (Some fake_credentials) _ _ _ _ _ empty_world
                  (fake_port_reached [-1; 8443])) 8443 Hret).
Defined.

Lemma assertion_failure_releases_nothing_witness :
  binding_reached SSL_TAG FAKE_TAG (sample GRPC_SECURITY_OK 300 400 [5; -1; 6]) "localhost:0"
    (Some fake_credentials) 201 300 {| addrs := map (fun _ => an_address) [5; -1; 6] |} 400
    (fake_port_prelude 300 400) /\
  ~ agree [5; -1; 6] /\
  live [] (new_events empty_world (final (add_fake_port 300 400 [5; -1; 6])))
    = Some [Security_context 201; Resolved_addresses 300; Tcp_server 400] /\
  heap (final (add_fake_port 300 400 [5; -1; 6])) = heap empty_world.
Proof.
  split; [apply fake_port_reached |]. split; [exact ports_5_6_disagree |].
  exact (assertion_failure_releases_nothing SSL_TAG FAKE_TAG _ 1 "localhost:0"
           (Some fake_credentials) _ _ _ _ _ empty_world
           (fake_port_reached [5; -1; 6]) ports_5_6_disagree).
Defined.

Lemma unlogged_failures_witness :
  context_created SSL_TAG FAKE_TAG (sample GRPC_SECURITY_OK NULL 400 [8443])
    fake_credentials 201 [Ev_fake_server_security_context_create 201] /\
  returned (add_fake_port NULL 400 [8443]) = Some 0 /\
  logs (new_events empty_world (final (add_fake_port NULL 400 [8443]))) = [].
Proof.
  assert (context_created SSL_TAG FAKE_TAG (sample GRPC_SECURITY_OK NULL 400 [8443])
            fake_credentials 201 [Ev_fake_server_security_context_create 201]) as Hc
    by by apply created_fake.
  split; [exact Hc |].
  exact (proj2 (unlogged_failures SSL_TAG FAKE_TAG (sample GRPC_SECURITY_OK NULL 400 [8443])
                  1 "localhost:0" empty_world)
           fake_credentials 201 _ Hc (or_introl eq_refl)).
Defined.

Lemma start_starts_bound_server_witness :
  add_fake_port 300 400 [8443] = Returned 8443 one_port_world /\
  registers (new_events empty_world one_port_world) = true /\
  start 1 500 900 1 one_port_world =
  Returned tt (emit (Ev_tcp_server_start 400 900 1 Fn_on_accept 500) one_port_world).
Proof.
  split; [exact one_port_run |]. split; [exact one_port_registered |].
  exact (start_starts_bound_server SSL_TAG FAKE_TAG (sample GRPC_SECURITY_OK 300 400 [8443])
           1 "localhost:0" (Some fake_credentials) empty_world 8443 one_port_world
           one_port_run one_port_registered 1 900 1 one_port_world eq_refl).
Defined.

Lemma accept_uses_port_context_witness :
  add_fake_port 300 400 [8443] = Returned 8443 one_port_world /\
  registers (new_events empty_world one_port_world) = true /\
  exists c ctx evs,
    Some fake_credentials = Some c /\
    context_created SSL_TAG FAKE_TAG (sample GRPC_SECURITY_OK 300 400 [8443]) c ctx evs /\
    forall endpoint w2,
      heap w2 !! 500 = heap one_port_world !! 500 ->
      on_accept 500 endpoint w2 =
      Returned tt
        (emit (Ev_setup_secure_transport ctx endpoint Fn_on_secure_transport_setup_done 1)
           w2).
Proof.
  split; [exact one_port_run |]. split; [exact one_port_registered |].
  exact (accept_uses_port_context SSL_TAG FAKE_TAG (sample GRPC_SECURITY_OK 300 400 [8443])
           1 "localhost:0" (Some fake_credentials) empty_world 8443 one_port_world
           one_port_run one_port_registered).
Defined.

Lemma port_life_is_balanced_witness :
  add_fake_port 300 400 [8443] = Returned 8443 one_port_world /\
  registers (new_events empty_world one_port_world) = true /\
  exists w3,
    destroy 1 500 one_port_world = Returned tt w3 /\
    live [] (new_events empty_world w3) = Some [] /\
    heap w3 !! 500 = None.
Proof.
  split; [exact one_port_run |]. split; [exact one_port_registered |].
  exact (proj1 (port_life_is_balanced SSL_TAG FAKE_TAG
                  (sample GRPC_SECURITY_OK 300 400 [8443])
                  1 "localhost:0" (Some fake_credentials) empty_world 8443 one_port_world 1
                  one_port_run one_port_registered)).
Defined.

Lemma destroy_leaves_other_ports_witness :
  heap two_ports_world !! 500 = Some {| tcp := 400; ctx := 201; server := 1 |} /\
  heap two_ports_world !! 501 = Some {| tcp := 401; ctx := 202; server := 1 |} /\
  500 <> 501 /\
  exists w1,
    destroy 1 500 two_ports_world = Returned tt w1 /\
    heap w1 !! 500 = None /\
    heap w1 !! 501 = Some {| tcp := 401; ctx := 202; server := 1 |} /\
    destroy 1 501 w1 =
    Returned tt
      (unmap 501
         (emits (destroy_calls 501 {| tcp := 401; ctx := 202; server := 1 |}) w1)).
Proof.
  assert (heap two_ports_world !! 500 = Some {| tcp := 400; ctx := 201; server := 1 |})
    as H500 by reflexivity.
  assert (heap two_ports_world !! 501 = Some {| tcp := 401; ctx := 202; server := 1 |})
    as H501 by reflexivity.
  assert (500 <> 501) as Hne by lia.
  repeat (split; [assumption |]).
  exact (destroy_leaves_other_ports 1 500 _ 501 _ two_ports_world H500 H501 Hne).
Defined.

Lemma completion_keeps_port_accepting_witness :
  heap one_port_world !! 500 = Some {| tcp := 400; ctx := 201; server := 1 |} /\
  on_accept 500 78
    (final (on_secure_transport_setup_done (sample GRPC_SECURITY_OK 300 400 [8443])
              Mdctx_first 1 GRPC_SECURITY_ERROR 77 one_port_world)) =
  Returned tt
    (emit (Ev_setup_secure_transport 201 78 Fn_on_secure_transport_setup_done 1)
       (final (on_secure_transport_setup_done (sample GRPC_SECURITY_OK 300 400 [8443])
                 Mdctx_first 1 GRPC_SECURITY_ERROR 77 one_port_world))).
Proof.
  assert (heap one_port_world !! 500 = Some {| tcp := 400; ctx := 201; server := 1 |})
    as Hsp by reflexivity.
  split; [exact Hsp |].
  exact (completion_keeps_port_accepting (sample GRPC_SECURITY_OK 300 400 [8443])
           Mdctx_first 1 GRPC_SECURITY_ERROR 77 500 _ 78 one_port_world Hsp).
Defined.

Lemma abort_at_first_mismatch_witness :
  binding_reached SSL_TAG FAKE_TAG (sample GRPC_SECURITY_OK 300 400 [5; -1; 6; 5])
    "localhost:0" (Some fake_credentials) 201 300
    {| addrs := map (fun _ => an_address) [5; -1; 6; 5] |} 400 (fake_port_prelude 300 400) /\
  returned (add_fake_port 300 400 [5; -1; 6; 5]) = None /\
  exists front a q,
    new_events empty_world (final (add_fake_port 300 400 [5; -1; 6; 5])) =
      front ++ [Ev_tcp_server_add_port 400 a q;
                assertion_failed "port_num == port_temp"] /\
    0 <= q /\ Some q <> first_success [5; -1; 6; 5].
Proof.
  assert (returned (add_fake_port 300 400 [5; -1; 6; 5]) = None) as Hret by reflexivity.
  split; [apply fake_port_reached |]. split; [exact Hret |].
  exact (abort_at_first_mismatch SSL_TAG FAKE_TAG _ 1 "localhost:0" (Some fake_credentials)
           _ _ _ _ _ empty_world (fake_port_reached [5; -1; 6; 5]) Hret).
Defined.

Lemma credential_dispatch_witness :
  type fake_credentials <> SSL_TAG /\ type fake_credentials = FAKE_TAG /\
  creations (new_events empty_world (final (add_fake_port 300 400 [8443])))
    = [Ev_fake_server_security_context_create 201] /\
  Ev_blocking_resolve_address "localhost:0" "https" 300
    ∈ new_events empty_world (final (add_fake_port 300 400 [8443])).
Proof.
  assert (type fake_credentials <> SSL_TAG) as Hssl by discriminate.
  assert (type fake_credentials = FAKE_TAG) as Hfake by reflexivity.
  repeat (split; [assumption |]).
  exact (proj1 (proj2 (credential_dispatch SSL_TAG FAKE_TAG
                         (sample GRPC_SECURITY_OK 300 400 [8443])
                         1 "localhost:0" fake_credentials empty_world)) Hssl Hfake).
Defined.

Lemma at_most_one_log_line_witness :
  returned (add_fake_port 300 400 [-1; 8443]) = Some 8443 /\
  Nat.le (length (logs (new_events empty_world (final (add_fake_port 300 400 [-1; 8443])))))
    1.
Proof.
  assert (returned (add_fake_port 300 400 [-1; 8443]) = Some 8443) as Hret by reflexivity.
  split; [exact Hret |].
  exact (at_most_one_log_line SSL_TAG FAKE_TAG (sample GRPC_SECURITY_OK 300 400 [-1; 8443])
           1 "localhost:0" (Some fake_credentials) empty_world 8443 Hret).
Defined.
